(** * SchematicImportDialog (src/ui/dialog/import_dialog.cpp)

    A shallow embedding of the import dialog and of the part of the GUI
    toolkit it drives.  The dialog is one C++ class: a constructor that
    builds a widget tree through toolkit calls, and two empty button
    handlers.  The toolkit objects live in a store indexed by object
    address; the constructor is a straight-line program in a small
    state / fault / call-log monad over that store. *)

From stdpp Require Import gmap strings list fin_maps.
From Stdlib Require Import ZArith.

Open Scope Z_scope.

(** ** Objects *)

(** An object address.  A C++ pointer is [option ptr]; [None] is NULL. *)
Abbreviation ptr := nat (only parsing).

(** Toolkit constants the source names but does not define (they come
    from the toolkit headers); every result below holds for any values. *)
Record ToolkitConstants := {
  wxID_ANY : Z;
  wxDefaultPosition : Z * Z;
  wxDefaultSize : Z * Z;
  wxDEFAULT_DIALOG_STYLE : Z;
  wxRESIZE_BORDER : Z;
  wxScrolledWindowStyle : Z;
  wxTB_DEFAULT_STYLE : Z;
  wxSTB_DEFAULT_STYLE : Z
}.

Inductive wxOrientation := wxHORIZONTAL | wxVERTICAL.

Inductive wxEventType := wxEVT_BUTTON | wxEVT_TOOL | wxEVT_CLOSE_WINDOW.

Global Instance wxEventType_eq_dec : EqDecision wxEventType.
Proof. solve_decision. Defined.

(** The member functions of [SchematicImportDialog] that are bound as
    event handlers. *)
Inductive Method := OnVectorize | OnZoom.

Global Instance Method_eq_dec : EqDecision Method.
Proof. solve_decision. Defined.

(** One entry of a window's dynamic event table, as [Bind] records it:
    the event type, the member function and the object it is called on. *)
Record Binding := {
  b_type : wxEventType;
  b_method : Method;
  b_this : ptr
}.

Global Instance Binding_eq_dec : EqDecision Binding.
Proof. solve_decision. Defined.

(** The private members of the class (lines 7-10); NULL until assigned. *)
Record Members := {
  m_scrolledWindow : option ptr;
  m_vectorizeBtn : option ptr;
  m_zoomBtn : option ptr;
  m_statusBar : option ptr
}.

Definition no_members : Members :=
  {| m_scrolledWindow := None; m_vectorizeBtn := None;
     m_zoomBtn := None; m_statusBar := None |}.

(** What a window carries besides the fields every window has, by its
    dynamic class. *)
Inductive ClassData :=
  | SchematicImportDialogD (modal : bool)
      (frame_toolbar frame_statusbar : option ptr) (m : Members)
  | wxScrolledWindowD (rate : Z * Z)
  | wxToolBarD (controls : list ptr) (realized : bool)
  | wxButtonD
  | wxStatusBarD (fields : list string)
  | wxFrameD.

Record Window := {
  w_parent : option ptr;
  w_id : Z;
  w_label : string;
  w_pos : Z * Z;
  w_size : Z * Z;
  w_style : Z;
  w_min_size : Z * Z;
  w_sizer : option ptr;
  w_shown : bool;
  w_bindings : list Binding;
  w_data : ClassData
}.

Record Sizer := {
  sz_orient : wxOrientation;
  sz_items : list ptr;
  sz_containing : option ptr
}.

(** The store: live windows, live sizers, and the next free address. *)
Record Store := {
  windows : gmap nat Window;
  sizers : gmap nat Sizer;
  next : nat
}.

Definition empty_store : Store :=
  {| windows := ∅; sizers := ∅; next := 0%nat |}.

(** A command event, passed to handlers by reference; a handler that
    wants the search for handlers to go on calls [Skip] on it. *)
Record wxCommandEvent := {
  ev_type : wxEventType;
  ev_object : ptr;
  ev_skipped : bool
}.

(** ** Calls and the monad *)

(** The log: one entry per toolkit call made and per handler entered. *)
Inductive Event :=
  | CallNewDialog (obj : ptr)
  | CallNewSizer (obj : ptr)
  | CallNewScrolledWindow (obj : ptr)
  | CallNewButton (obj : ptr)
  | CallSetScrollRate (w : ptr)
  | CallCreateToolBar (w tb : ptr)
  | CallAddControl (tb c : ptr)
  | CallRealize (tb : ptr)
  | CallCreateStatusBar (w sb : ptr)
  | CallBind (w : ptr) (b : Binding)
  | CallSetSizer (w sz : ptr)
  | CallSizerAdd (sz w : ptr)
  | CallSetMinSize (w : ptr) (sz : Z * Z)
  | CallShow (w : ptr)
  | CallShowModal (w : ptr)
  | CallNewFrame (obj : ptr)
  | CallDelete (w : ptr)
  | Invoke (m : Method) (this : ptr).

Global Instance Event_eq_dec : EqDecision Event.
Proof. solve_decision. Defined.

(** A computation either returns a value, a store and the calls it made,
    or faults (a dereference of a pointer to no live object, or an
    escaping exception). *)
Inductive Outcome (A : Type) :=
  | Normal (a : A) (s : Store) (log : list Event)
  | Fault.
Arguments Normal {A} a s log.
Arguments Fault {A}.

Definition M (A : Type) : Type := Store → Outcome A.

Definition ret {A} (a : A) : M A := λ s, Normal a s [].

Definition bind {A B} (k : A → M B) (c : M A) : M B := λ s,
  match c s with
  | Normal a s1 l1 =>
      match k a s1 with
      | Normal b s2 l2 => Normal b s2 (l1 ++ l2)
      | Fault => Fault
      end
  | Fault => Fault
  end.

(** The monad notations are the library's: [x ← c; k] and [c;; k]. *)
Global Instance M_ret : MRet M := @ret.
Global Instance M_bind : MBind M := @bind.

Definition fault {A} : M A := λ _, Fault.
Definition emit (e : Event) : M unit := λ s, Normal tt s [e].
Definition get_store : M Store := λ s, Normal s s [].
Definition put_store (s : Store) : M unit := λ _, Normal tt s [].

(** Dereference of a window pointer. *)
Definition deref (w : ptr) : M Window := λ s,
  match windows s !! w with
  | Some win => Normal win s []
  | None => Fault
  end.

Definition store_window (w : ptr) (win : Window) : M unit := λ s,
  Normal tt {| windows := <[w := win]> (windows s);
               sizers := sizers s; next := next s |} [].

Definition store_sizer (p : ptr) (sz : Sizer) : M unit := λ s,
  Normal tt {| windows := windows s;
               sizers := <[p := sz]> (sizers s); next := next s |} [].

(** [new]: the next free address. *)
Definition alloc : M ptr := λ s,
  Normal (next s) {| windows := windows s; sizers := sizers s;
                     next := S (next s) |} [].

(** A parent pointer handed to a window constructor is NULL or points to
    a live window. *)
Definition check_parent (parent : option ptr) : M unit :=
  match parent with
  | None => ret tt
  | Some p => deref p ;; ret tt
  end.

(** ** Field updates *)

Definition set_min_size (v : Z * Z) (w : Window) : Window :=
  {| w_parent := w_parent w; w_id := w_id w; w_label := w_label w;
     w_pos := w_pos w; w_size := w_size w; w_style := w_style w;
     w_min_size := v; w_sizer := w_sizer w; w_shown := w_shown w;
     w_bindings := w_bindings w; w_data := w_data w |}.

Definition set_sizer (v : option ptr) (w : Window) : Window :=
  {| w_parent := w_parent w; w_id := w_id w; w_label := w_label w;
     w_pos := w_pos w; w_size := w_size w; w_style := w_style w;
     w_min_size := w_min_size w; w_sizer := v; w_shown := w_shown w;
     w_bindings := w_bindings w; w_data := w_data w |}.

Definition set_shown (v : bool) (w : Window) : Window :=
  {| w_parent := w_parent w; w_id := w_id w; w_label := w_label w;
     w_pos := w_pos w; w_size := w_size w; w_style := w_style w;
     w_min_size := w_min_size w; w_sizer := w_sizer w; w_shown := v;
     w_bindings := w_bindings w; w_data := w_data w |}.

Definition set_bindings (v : list Binding) (w : Window) : Window :=
  {| w_parent := w_parent w; w_id := w_id w; w_label := w_label w;
     w_pos := w_pos w; w_size := w_size w; w_style := w_style w;
     w_min_size := w_min_size w; w_sizer := w_sizer w; w_shown := w_shown w;
     w_bindings := v; w_data := w_data w |}.

Definition set_data (v : ClassData) (w : Window) : Window :=
  {| w_parent := w_parent w; w_id := w_id w; w_label := w_label w;
     w_pos := w_pos w; w_size := w_size w; w_style := w_style w;
     w_min_size := w_min_size w; w_sizer := w_sizer w; w_shown := w_shown w;
     w_bindings := w_bindings w; w_data := v |}.

Definition set_containing (v : option ptr) (z : Sizer) : Sizer :=
  {| sz_orient := sz_orient z; sz_items := sz_items z; sz_containing := v |}.

Definition set_items (v : list ptr) (z : Sizer) : Sizer :=
  {| sz_orient := sz_orient z; sz_items := v;
     sz_containing := sz_containing z |}.

Definition with_scrolledWindow (v : option ptr) (m : Members) : Members :=
  {| m_scrolledWindow := v; m_vectorizeBtn := m_vectorizeBtn m;
     m_zoomBtn := m_zoomBtn m; m_statusBar := m_statusBar m |}.

Definition with_vectorizeBtn (v : option ptr) (m : Members) : Members :=
  {| m_scrolledWindow := m_scrolledWindow m; m_vectorizeBtn := v;
     m_zoomBtn := m_zoomBtn m; m_statusBar := m_statusBar m |}.

Definition with_zoomBtn (v : option ptr) (m : Members) : Members :=
  {| m_scrolledWindow := m_scrolledWindow m;
     m_vectorizeBtn := m_vectorizeBtn m;
     m_zoomBtn := v; m_statusBar := m_statusBar m |}.

Definition with_statusBar (v : option ptr) (m : Members) : Members :=
  {| m_scrolledWindow := m_scrolledWindow m;
     m_vectorizeBtn := m_vectorizeBtn m;
     m_zoomBtn := m_zoomBtn m; m_statusBar := v |}.

(** ** The toolkit calls the source makes *)

Section Toolkit.
Context (K : ToolkitConstants).

(** A freshly created window: no minimum size, no sizer, no handlers. *)
Definition fresh_window (parent : option ptr) (id : Z) (label : string)
    (pos size : Z * Z) (style : Z) (shown : bool) (d : ClassData) : Window :=
  {| w_parent := parent; w_id := id; w_label := label; w_pos := pos;
     w_size := size; w_style := style; w_min_size := wxDefaultSize K;
     w_sizer := None; w_shown := shown; w_bindings := []; w_data := d |}.

Definition new_window (parent : option ptr) (id : Z) (label : string)
    (pos size : Z * Z) (style : Z) (shown : bool) (d : ClassData) : M ptr :=
  check_parent parent ;;
  p ← alloc;
  store_window p (fresh_window parent id label pos size style shown d) ;;
  ret p.

(** The base-class constructor [wxDialog(parent, id, title, pos, size,
    style)].  A dialog is created hidden and not modal. *)
Definition wxDialog_ctor (parent : option ptr) (id : Z) (title : string)
    (pos size : Z * Z) (style : Z) : M ptr :=
  this ← new_window parent id title pos size style false
            (SchematicImportDialogD false None None no_members);
  emit (CallNewDialog this) ;;
  ret this.

(** Any other top-level window of the application (a possible parent). *)
Definition new_wxFrame (parent : option ptr) (title : string) : M ptr :=
  w ← new_window parent (wxID_ANY K) title (wxDefaultPosition K)
         (wxDefaultSize K) 0 false wxFrameD;
  emit (CallNewFrame w) ;;
  ret w.

Definition new_wxBoxSizer (orient : wxOrientation) : M ptr :=
  p ← alloc;
  store_sizer p {| sz_orient := orient; sz_items := [];
                   sz_containing := None |} ;;
  emit (CallNewSizer p) ;;
  ret p.

Definition new_wxScrolledWindow (parent : ptr) : M ptr :=
  w ← new_window (Some parent) (wxID_ANY K) "" (wxDefaultPosition K)
         (wxDefaultSize K) (wxScrolledWindowStyle K) true
         (wxScrolledWindowD (0, 0));
  emit (CallNewScrolledWindow w) ;;
  ret w.

Definition new_wxButton (parent : ptr) (id : Z) (label : string) : M ptr :=
  w ← new_window (Some parent) id label (wxDefaultPosition K)
         (wxDefaultSize K) 0 true wxButtonD;
  emit (CallNewButton w) ;;
  ret w.

Definition SetScrollRate (w : ptr) (xstep ystep : Z) : M unit :=
  win ← deref w;
  match w_data win with
  | wxScrolledWindowD _ =>
      store_window w (set_data (wxScrolledWindowD (xstep, ystep)) win) ;;
      emit (CallSetScrollRate w)
  | _ => fault
  end.

(** [CreateToolBar()] on the dialog: a toolbar child, remembered as the
    window's toolbar. *)
Definition CreateToolBar (this : ptr) : M ptr :=
  tb ← new_window (Some this) (wxID_ANY K) "" (wxDefaultPosition K)
          (wxDefaultSize K) (wxTB_DEFAULT_STYLE K) true (wxToolBarD [] false);
  win ← deref this;
  match w_data win with
  | SchematicImportDialogD modal _ sb m =>
      store_window this
        (set_data (SchematicImportDialogD modal (Some tb) sb m) win) ;;
      emit (CallCreateToolBar this tb) ;;
      ret tb
  | _ => fault
  end.

(** [toolbar->AddControl(c)]: the control goes after the ones already
    there. *)
Definition AddControl (tb c : ptr) : M unit :=
  deref c ;;
  win ← deref tb;
  match w_data win with
  | wxToolBarD cs r =>
      store_window tb (set_data (wxToolBarD (cs ++ [c]) r) win) ;;
      emit (CallAddControl tb c)
  | _ => fault
  end.

Definition Realize (tb : ptr) : M unit :=
  win ← deref tb;
  match w_data win with
  | wxToolBarD cs _ =>
      store_window tb (set_data (wxToolBarD cs true) win) ;;
      emit (CallRealize tb)
  | _ => fault
  end.

(** [CreateStatusBar()] on the dialog: a status bar child with one empty
    field, remembered as the window's status bar. *)
Definition CreateStatusBar (this : ptr) : M ptr :=
  sb ← new_window (Some this) (wxID_ANY K) "" (wxDefaultPosition K)
          (wxDefaultSize K) (wxSTB_DEFAULT_STYLE K) true
          (wxStatusBarD [EmptyString]);
  win ← deref this;
  match w_data win with
  | SchematicImportDialogD modal tb _ m =>
      store_window this
        (set_data (SchematicImportDialogD modal tb (Some sb) m) win) ;;
      emit (CallCreateStatusBar this sb) ;;
      ret sb
  | _ => fault
  end.

(** [w->Bind(type, &SchematicImportDialog::method, this)]: a new entry
    in front of [w]'s dynamic event table (the table is searched from
    the most recent entry). *)
Definition Bind (w : ptr) (ty : wxEventType) (m : Method) (this : ptr)
    : M unit :=
  win ← deref w;
  let b := {| b_type := ty; b_method := m; b_this := this |} in
  store_window w (set_bindings (b :: w_bindings win) win) ;;
  emit (CallBind w b).

Definition deref_sizer (p : ptr) : M Sizer := λ s,
  match sizers s !! p with
  | Some z => Normal z s []
  | None => Fault
  end.

Definition delete_sizer (p : ptr) : M unit := λ s,
  Normal tt {| windows := windows s; sizers := delete p (sizers s);
               next := next s |} [].

(** [SetSizer(sizer)]: the window takes ownership of the sizer and
    deletes the one it had, if it had another. *)
Definition SetSizer (w sz : ptr) : M unit :=
  win ← deref w;
  z ← deref_sizer sz;
  match w_sizer win with
  | Some old => if decide (old = sz) then ret tt else delete_sizer old
  | None => ret tt
  end ;;
  store_window w (set_sizer (Some sz) win) ;;
  store_sizer sz (set_containing (Some w) z) ;;
  emit (CallSetSizer w sz).

(** [sizer->Add(window)]: the only way an item gets into a sizer; the
    source does not call it. *)
Definition SizerAdd (sz w : ptr) : M unit :=
  deref w ;;
  z ← deref_sizer sz;
  store_sizer sz (set_items (sz_items z ++ [w]) z) ;;
  emit (CallSizerAdd sz w).

Definition SetMinSize (w : ptr) (size : Z * Z) : M unit :=
  win ← deref w;
  store_window w (set_min_size size win) ;;
  emit (CallSetMinSize w size).

Definition GetMinSize (w : ptr) : M (Z * Z) :=
  win ← deref w;
  ret (w_min_size win).

(** Showing the dialog, modeless or modal; the source calls neither. *)
Definition Show (w : ptr) : M unit :=
  win ← deref w;
  store_window w (set_shown true win) ;;
  emit (CallShow w).

Definition ShowModal (w : ptr) : M unit :=
  win ← deref w;
  match w_data win with
  | SchematicImportDialogD _ tb sb m =>
      store_window w
        (set_shown true (set_data (SchematicImportDialogD true tb sb m) win)) ;;
      emit (CallShowModal w)
  | _ => fault
  end.

End Toolkit.

(** ** The class *)

Section Dialog.
Context (K : ToolkitConstants).

(** Reading and assigning the members of the object at [this]. *)
Definition members_of (this : ptr) : M Members :=
  win ← deref this;
  match w_data win with
  | SchematicImportDialogD _ _ _ m => ret m
  | _ => fault
  end.

Definition assign_member (upd : Members → Members) (this : ptr) : M unit :=
  win ← deref this;
  match w_data win with
  | SchematicImportDialogD modal tb sb m =>
      store_window this
        (set_data (SchematicImportDialogD modal tb sb (upd m)) win)
  | _ => fault
  end.

(** A member used as the target of [->] or passed on: NULL faults. *)
Definition member (f : Members → option ptr) (this : ptr) : M ptr :=
  m ← members_of this;
  match f m with
  | Some p => ret p
  | None => fault
  end.

(** The constructor, lines 13-40, statement by statement. *)
Definition SchematicImportDialog_ctor (parent : option ptr) : M ptr :=
  this ← wxDialog_ctor K parent (wxID_ANY K) "Import Schematic"
           (wxDefaultPosition K) (wxDefaultSize K)
           (Z.lor (wxDEFAULT_DIALOG_STYLE K) (wxRESIZE_BORDER K));
  mainSizer ← new_wxBoxSizer wxVERTICAL;
  sw ← new_wxScrolledWindow K this;
  assign_member (with_scrolledWindow (Some sw)) this ;;
  sw' ← member m_scrolledWindow this;
  SetScrollRate sw' 5 5 ;;
  toolbar ← CreateToolBar K this;
  vb ← new_wxButton K toolbar (wxID_ANY K) "Vectorize";
  assign_member (with_vectorizeBtn (Some vb)) this ;;
  zb ← new_wxButton K toolbar (wxID_ANY K) "Zoom";
  assign_member (with_zoomBtn (Some zb)) this ;;
  vb' ← member m_vectorizeBtn this;
  AddControl toolbar vb' ;;
  zb' ← member m_zoomBtn this;
  AddControl toolbar zb' ;;
  Realize toolbar ;;
  sb ← CreateStatusBar K this;
  assign_member (with_statusBar (Some sb)) this ;;
  vb'' ← member m_vectorizeBtn this;
  Bind vb'' wxEVT_BUTTON OnVectorize this ;;
  zb'' ← member m_zoomBtn this;
  Bind zb'' wxEVT_BUTTON OnZoom this ;;
  SetSizer this mainSizer ;;
  SetMinSize this (800, 600) ;;
  ret this.

(** The handlers, lines 42-48: empty bodies.  The event is passed by
    reference and comes back as the body left it. *)
Definition SchematicImportDialog_OnVectorize (this : ptr)
    (event : wxCommandEvent) : M wxCommandEvent :=
  ret event.

Definition SchematicImportDialog_OnZoom (this : ptr)
    (event : wxCommandEvent) : M wxCommandEvent :=
  ret event.

Definition call_method (m : Method) (this : ptr) (event : wxCommandEvent)
    : M wxCommandEvent :=
  emit (Invoke m this) ;;
  match m with
  | OnVectorize => SchematicImportDialog_OnVectorize this event
  | OnZoom => SchematicImportDialog_OnZoom this event
  end.

(** ** Event dispatch *)

Definition set_skipped (v : bool) (e : wxCommandEvent) : wxCommandEvent :=
  {| ev_type := ev_type e; ev_object := ev_object e; ev_skipped := v |}.

(** The search of a window's dynamic event table: each entry of the
    event's type is called with the skip flag cleared; the search ends
    with the first handler that returns without asking to skip. *)
Fixpoint SearchDynamicEventTable (bs : list Binding) (event : wxCommandEvent)
    : M bool :=
  match bs with
  | [] => ret false
  | b :: rest =>
      if decide (b_type b = ev_type event) then
        event' ← call_method (b_method b) (b_this b) (set_skipped false event);
        if ev_skipped event' then SearchDynamicEventTable rest event'
        else ret true
      else SearchDynamicEventTable rest event
  end.

(** An unhandled command event goes on to the parent, up to the first
    dialog, which does not pass it on.  [fuel] bounds the walk. *)
Fixpoint ProcessEvent (fuel : nat) (w : ptr) (event : wxCommandEvent)
    : M bool :=
  win ← deref w;
  handled ← SearchDynamicEventTable (w_bindings win) event;
  if (handled : bool) then ret true else
  match fuel with
  | O => ret false
  | S fuel' =>
      match w_data win, w_parent win with
      | SchematicImportDialogD _ _ _ _, _ => ret false
      | _, Some p => ProcessEvent fuel' p event
      | _, None => ret false
      end
  end.

(** A click on button [w]: one [wxEVT_BUTTON] command event, processed
    starting at the button.  Returns whether a handler took it. *)
Definition click (w : ptr) : M bool :=
  win ← deref w;
  match w_data win with
  | wxButtonD =>
      s ← get_store;
      ProcessEvent (next s) w
        {| ev_type := wxEVT_BUTTON; ev_object := w; ev_skipped := false |}
  | _ => fault
  end.

(** Clicking the button a handler is bound to, found through the
    dialog's members. *)
Definition button_of (m : Method) : Members → option ptr :=
  match m with
  | OnVectorize => m_vectorizeBtn
  | OnZoom => m_zoomBtn
  end.

Definition click_button (this : ptr) (m : Method) : M bool :=
  b ← member (button_of m) this;
  click b.

(** A command event of type [ty] arising at window [w], whatever its
    class (a click is the case of [wxEVT_BUTTON] at a button). *)
Definition deliver (w : ptr) (ty : wxEventType) : M bool :=
  s ← get_store;
  ProcessEvent (next s) w
    {| ev_type := ty; ev_object := w; ev_skipped := false |}.

(** ** Destruction *)

(** [descends_fuel fuel ws w d]: [d] is [w] or an ancestor of [w],
    following parent pointers for at most [fuel] steps. *)
Fixpoint descends_fuel (fuel : nat) (ws : gmap nat Window) (w d : ptr)
    : bool :=
  if decide (w = d) then true else
  match fuel with
  | O => false
  | S fuel' =>
      match ws !! w with
      | Some win =>
          match w_parent win with
          | Some p => descends_fuel fuel' ws p d
          | None => false
          end
      | None => false
      end
  end.

Definition descends (s : Store) (w d : ptr) : bool :=
  descends_fuel (next s) (windows s) w d.

(** The sizers the windows of [ws] own. *)
Definition owned_sizers (ws : gmap nat Window) : gset nat :=
  list_to_set (omap (λ kv : nat * Window, w_sizer kv.2) (map_to_list ws)).

(** [delete d] (the implicit destructor, which is the base class's): the
    window goes, and with it every window below it and the sizers they
    own. *)
Definition Delete (d : ptr) : M unit :=
  deref d ;;
  s ← get_store;
  let dead :=
    filter (λ kv : nat * Window, descends s kv.1 d = true) (windows s) in
  put_store
    {| windows :=
         filter (λ kv : nat * Window, descends s kv.1 d = false) (windows s);
       sizers :=
         filter (λ kz : nat * Sizer, kz.1 ∉ owned_sizers dead) (sizers s);
       next := next s |} ;;
  emit (CallDelete d).

(** ** The application around the dialog *)

(** What the rest of the program can do, step by step: create some other
    top-level window, construct a dialog, delete a top-level window,
    deliver a click to a button, or call a handler directly. *)
Inductive Op :=
  | OpNewFrame (parent : option ptr)
  | OpConstruct (parent : option ptr)
  | OpDelete (w : ptr)
  | OpClick (w : ptr)
  | OpCall (m : Method) (this : ptr) (event : wxCommandEvent).

Definition exec_op (o : Op) : M unit :=
  match o with
  | OpNewFrame parent => new_wxFrame K parent "" ;; ret tt
  | OpConstruct parent => SchematicImportDialog_ctor parent ;; ret tt
  | OpDelete w =>
      win ← deref w;
      match w_data win with
      | SchematicImportDialogD _ _ _ _ | wxFrameD => Delete w
      | _ => fault
      end
  | OpClick w => click w ;; ret tt
  | OpCall m this event =>
      members_of this ;; call_method m this event ;; ret tt
  end.

Fixpoint exec_ops (os : list Op) : M unit :=
  match os with
  | [] => ret tt
  | o :: rest => exec_op o ;; exec_ops rest
  end.

(** Construct a dialog and delete it again, once per parent given. *)
Fixpoint construct_destroy_cycles (parents : list (option ptr)) : M unit :=
  match parents with
  | [] => ret tt
  | parent :: rest =>
      this ← SchematicImportDialog_ctor parent;
      Delete this ;;
      construct_destroy_cycles rest
  end.

End Dialog.

(** ** What can be observed of a store *)

Definition GetTitle (s : Store) (w : ptr) : option string :=
  w_label <$> windows s !! w.

Definition GetLabel (s : Store) (w : ptr) : option string :=
  w_label <$> windows s !! w.

Definition GetWindowStyle (s : Store) (w : ptr) : option Z :=
  w_style <$> windows s !! w.

Definition GetParent (s : Store) (w : ptr) : option (option ptr) :=
  w_parent <$> windows s !! w.

Definition IsShown (s : Store) (w : ptr) : option bool :=
  w_shown <$> windows s !! w.

Definition GetSizer (s : Store) (w : ptr) : option (option ptr) :=
  w_sizer <$> windows s !! w.

Definition GetEventTable (s : Store) (w : ptr) : option (list Binding) :=
  w_bindings <$> windows s !! w.

Definition is_dialog (s : Store) (w : ptr) : bool :=
  match w_data <$> windows s !! w with
  | Some (SchematicImportDialogD _ _ _ _) => true
  | _ => false
  end.

Definition is_button (s : Store) (w : ptr) : bool :=
  match w_data <$> windows s !! w with
  | Some wxButtonD => true
  | _ => false
  end.

Definition IsModal (s : Store) (w : ptr) : option bool :=
  match w_data <$> windows s !! w with
  | Some (SchematicImportDialogD modal _ _ _) => Some modal
  | _ => None
  end.

Definition GetToolBar (s : Store) (w : ptr) : option ptr :=
  match w_data <$> windows s !! w with
  | Some (SchematicImportDialogD _ tb _ _) => tb
  | _ => None
  end.

Definition GetMembers (s : Store) (w : ptr) : option Members :=
  match w_data <$> windows s !! w with
  | Some (SchematicImportDialogD _ _ _ m) => Some m
  | _ => None
  end.

Definition GetControls (s : Store) (tb : ptr) : option (list ptr) :=
  match w_data <$> windows s !! tb with
  | Some (wxToolBarD cs _) => Some cs
  | _ => None
  end.

Definition GetScrollRate (s : Store) (w : ptr) : option (Z * Z) :=
  match w_data <$> windows s !! w with
  | Some (wxScrolledWindowD r) => Some r
  | _ => None
  end.

(** The text of field 0 of a status bar. *)
Definition GetStatusText (s : Store) (w : ptr) : option string :=
  match w_data <$> windows s !! w with
  | Some (wxStatusBarD fields) => fields !! 0%nat
  | _ => None
  end.

Definition GetItems (s : Store) (sz : ptr) : option (list ptr) :=
  sz_items <$> sizers s !! sz.

Definition live (s : Store) (w : ptr) : bool :=
  bool_decide (is_Some (windows s !! w)).

Definition live_sizer (s : Store) (z : ptr) : bool :=
  bool_decide (is_Some (sizers s !! z)).

Definition is_top_level (s : Store) (w : ptr) : bool :=
  match w_data <$> windows s !! w with
  | Some (SchematicImportDialogD _ _ _ _) | Some wxFrameD => true
  | _ => false
  end.

(** The windows a dialog created for itself: its toolbar and the four
    widgets its members point to. *)
Definition owned_widgets (s : Store) (this : ptr) : list ptr :=
  match GetMembers s this, GetToolBar s this with
  | Some m, Some tb =>
      tb :: omap id [m_scrolledWindow m; m_vectorizeBtn m; m_zoomBtn m;
                     m_statusBar m]
  | _, _ => []
  end.


Definition is_add_control (e : Event) : bool :=
  match e with
  | CallAddControl _ _ => true
  | _ => false
  end.

Definition is_show_call (e : Event) : bool :=
  match e with
  | CallShow _ | CallShowModal _ => true
  | _ => false
  end.

Definition is_invoke (e : Event) : bool :=
  match e with
  | Invoke _ _ => true
  | _ => false
  end.
(** ** Sample runs

    Concrete constants and stores on which the results are instantiated.
    The constants are sample values; no result depends on them. *)

Definition wx_sample : ToolkitConstants :=
  {| wxID_ANY := -1; wxDefaultPosition := (-1, -1); wxDefaultSize := (-1, -1);
     wxDEFAULT_DIALOG_STYLE := 0x20001800; wxRESIZE_BORDER := 0x40;
     wxScrolledWindowStyle := 0xC0000000; wxTB_DEFAULT_STYLE := 4;
     wxSTB_DEFAULT_STYLE := 0x10130 |}.

Definition store_of {A} (o : Outcome A) : Store :=
  match o with
  | Normal _ s _ => s
  | Fault => empty_store
  end.

Definition log_of {A} (o : Outcome A) : list Event :=
  match o with
  | Normal _ _ l => l
  | Fault => []
  end.

(** One frame, at address 0. *)
Definition sample_frame : Store :=
  store_of (exec_ops wx_sample [OpNewFrame None] empty_store).

(** A frame, then a dialog on it (at address 1, buttons at 5 and 6). *)
Definition sample_before : list Op := [OpNewFrame None].

Definition sample_built : Store :=
  store_of (SchematicImportDialog_ctor wx_sample (Some 0%nat) sample_frame).

(** Then clicks, a direct handler call, a second dialog on the first
    one's scrolled window (at address 8) and its deletion. *)
Definition sample_after : list Op :=
  [ OpClick 5; OpClick 6;
    OpCall OnZoom 1 {| ev_type := wxEVT_BUTTON; ev_object := 6%nat;
                       ev_skipped := false |};
    OpConstruct (Some 3%nat); OpClick 12; OpDelete 8 ].

Definition sample_end : Store :=
  store_of (exec_ops wx_sample sample_after sample_built).

Definition sample_run : list Op :=
  sample_before ++ OpConstruct (Some 0%nat) :: sample_after.

(** A frame (address 0), a dialog on it (address 1) and a dialog without
    parent (address 8). *)
Definition sample_pair_run : list Op :=
  [OpNewFrame None; OpConstruct (Some 0%nat); OpConstruct None].

Definition sample_pair : Store :=
  store_of (exec_ops wx_sample sample_pair_run empty_store).

(** ** Closed forms and invariants *)

Section Verification.
Context (K : ToolkitConstants).

(** The precondition of every window constructor: the parent pointer is
    NULL or points to a live window. *)
Definition parent_live (s : Store) (parent : option ptr) : Prop :=
  match parent with
  | None => True
  | Some p => is_Some (windows s !! p)
  end.

(** *** The constructor in closed form

    [ctor_store] is the store the constructor leaves and [ctor_log] the
    calls it makes, written out; [ctor_spec] proves that this is what
    running the constructor gives.  With [n] the first free address, the
    dialog is at [n], the sizer at [n+1], the scrolled window at [n+2],
    the toolbar at [n+3], the buttons at [n+4] and [n+5] and the status
    bar at [n+6]. *)

Definition ctor_members (n : nat) : Members :=
  {| m_scrolledWindow := Some (S (S n));
     m_vectorizeBtn := Some (S (S (S (S n))));
     m_zoomBtn := Some (S (S (S (S (S n)))));
     m_statusBar := Some (S (S (S (S (S (S n)))))) |}.

Definition ctor_dialog (parent : option ptr) (n : nat) : Window :=
  {| w_parent := parent; w_id := wxID_ANY K; w_label := "Import Schematic";
     w_pos := wxDefaultPosition K; w_size := wxDefaultSize K;
     w_style := Z.lor (wxDEFAULT_DIALOG_STYLE K) (wxRESIZE_BORDER K);
     w_min_size := (800, 600); w_sizer := Some (S n); w_shown := false;
     w_bindings := [];
     w_data := SchematicImportDialogD false (Some (S (S (S n))))
                 (Some (S (S (S (S (S (S n))))))) (ctor_members n) |}.

Definition ctor_button (n : nat) (label : string) (m : Method) : Window :=
  set_bindings [{| b_type := wxEVT_BUTTON; b_method := m; b_this := n |}]
    (fresh_window K (Some (S (S (S n)))) (wxID_ANY K) label
       (wxDefaultPosition K) (wxDefaultSize K) 0 true wxButtonD).

Definition ctor_windows (parent : option ptr) (n : nat)
    (ws : gmap nat Window) : gmap nat Window :=
  <[n := ctor_dialog parent n]>
  (<[S (S n) := fresh_window K (Some n) (wxID_ANY K) ""
       (wxDefaultPosition K) (wxDefaultSize K) (wxScrolledWindowStyle K)
       true (wxScrolledWindowD (5, 5))]>
  (<[S (S (S n)) := fresh_window K (Some n) (wxID_ANY K) ""
       (wxDefaultPosition K) (wxDefaultSize K) (wxTB_DEFAULT_STYLE K) true
       (wxToolBarD [S (S (S (S n))); S (S (S (S (S n))))] true)]>
  (<[S (S (S (S n))) := ctor_button n "Vectorize" OnVectorize]>
  (<[S (S (S (S (S n)))) := ctor_button n "Zoom" OnZoom]>
  (<[S (S (S (S (S (S n))))) := fresh_window K (Some n) (wxID_ANY K) ""
       (wxDefaultPosition K) (wxDefaultSize K) (wxSTB_DEFAULT_STYLE K) true
       (wxStatusBarD [EmptyString])]> ws))))).

Definition ctor_sizers (n : nat) (zs : gmap nat Sizer) : gmap nat Sizer :=
  <[S n := {| sz_orient := wxVERTICAL; sz_items := [];
              sz_containing := Some n |}]> zs.

Definition ctor_store (parent : option ptr) (s : Store) : Store :=
  {| windows := ctor_windows parent (next s) (windows s);
     sizers := ctor_sizers (next s) (sizers s);
     next := S (S (S (S (S (S (S (next s))))))) |}.

Definition ctor_log (n : nat) : list Event :=
  [ CallNewDialog n; CallNewSizer (S n); CallNewScrolledWindow (S (S n));
    CallSetScrollRate (S (S n)); CallCreateToolBar n (S (S (S n)));
    CallNewButton (S (S (S (S n)))); CallNewButton (S (S (S (S (S n)))));
    CallAddControl (S (S (S n))) (S (S (S (S n))));
    CallAddControl (S (S (S n))) (S (S (S (S (S n)))));
    CallRealize (S (S (S n)));
    CallCreateStatusBar n (S (S (S (S (S (S n))))));
    CallBind (S (S (S (S n))))
      {| b_type := wxEVT_BUTTON; b_method := OnVectorize; b_this := n |};
    CallBind (S (S (S (S (S n)))))
      {| b_type := wxEVT_BUTTON; b_method := OnZoom; b_this := n |};
    CallSetSizer n (S n); CallSetMinSize n (800, 600) ].

(** The store [new_wxFrame] leaves. *)
Definition frame_store (parent : option ptr) (title : string) (s : Store)
    : Store :=
  {| windows :=
       <[next s := fresh_window K parent (wxID_ANY K) title
                     (wxDefaultPosition K) (wxDefaultSize K) 0 false
                     wxFrameD]> (windows s);
     sizers := sizers s;
     next := S (next s) |}.

(** The store [Delete x] leaves. *)
Definition deleted_store (x : ptr) (s : Store) : Store :=
  {| windows :=
       filter (λ kv : nat * Window, descends s kv.1 x = false) (windows s);
     sizers :=
       filter (λ kz : nat * Sizer,
                 kz.1 ∉ owned_sizers
                   (filter (λ kv : nat * Window, descends s kv.1 x = true)
                      (windows s)))
         (sizers s);
     next := next s |}.

(** Parents are older than their children, so a walk up from [w] needs
    no more than [w] steps. *)
Definition parents_older (ws : gmap nat Window) : Prop :=
  ∀ w win p, ws !! w = Some win → w_parent win = Some p → (p < w)%nat.

(** [built s d parent]: the seven addresses from [d] hold, unchanged, what
    the constructor put there when it built a dialog at [d]. *)
Record built (s : Store) (d : ptr) (parent : option ptr) : Prop := {
  built_windows :
    ∀ i, (d ≤ i ≤ d + 6)%nat →
         windows s !! i = ctor_windows parent d ∅ !! i;
  built_sizer :
    sizers s !! S d = ctor_sizers d ∅ !! S d
}.

(** Dialogs and frames, the windows the application itself deletes. *)
Definition top_level (win : Window) : bool :=
  match w_data win with
  | SchematicImportDialogD _ _ _ _ | wxFrameD => true
  | _ => false
  end.

(** What holds of every store the application reaches: addresses in use
    are below [next]; a parent is live and older than its child; every
    dialog stands as built, every other widget sits in the block of such
    a dialog, and every sizer is the one of such a dialog. *)
Record Inv (s : Store) : Prop := {
  inv_bound : ∀ w win, windows s !! w = Some win → (w < next s)%nat;
  inv_parent :
    ∀ w win p, windows s !! w = Some win → w_parent win = Some p →
               (p < w)%nat ∧ is_Some (windows s !! p);
  inv_sizer_bound : ∀ z sz, sizers s !! z = Some sz → (z < next s)%nat;
  inv_window :
    ∀ w win, windows s !! w = Some win →
      match w_data win with
      | SchematicImportDialogD _ _ _ _ => ∃ parent, built s w parent
      | wxFrameD => w_sizer win = None
      | _ => ∃ d parent, built s d parent ∧ (d < w ≤ d + 6)%nat
      end;
  inv_sizer :
    ∀ z sz, sizers s !! z = Some sz → ∃ d parent, z = S d ∧ built s d parent
}.

(** The dialog built at [d] is still there, whole, or all of it is gone. *)
Definition tracked (s : Store) (d : ptr) (parent : option ptr) : Prop :=
  (d + 6 < next s)%nat ∧
  (built s d parent ∨
   ((∀ i, (d ≤ i ≤ d + 6)%nat → windows s !! i = None) ∧
    sizers s !! S d = None)).

(** ** Tactics *)

Ltac unfold_monad :=
  unfold mbind, M_bind, mret, M_ret, bind, ret, emit, fault, get_store,
    put_store, deref, deref_sizer, store_window, store_sizer, alloc,
    delete_sizer in *.

Ltac step_lookup :=
  first
    [ rewrite lookup_insert_eq
    | rewrite lookup_insert_ne by lia
    | rewrite lookup_delete_ne by lia ].

Ltac ctor_lookup :=
  unfold ctor_store, ctor_windows, ctor_sizers; cbn;
  repeat (first [ rewrite lookup_insert_eq | rewrite lookup_insert_ne by lia ];
          cbn).

(** The seven cases of an address inside a dialog's block. *)
Ltac block_cases i d H :=
  let E := fresh "E" in
  assert (i = d ∨ i = S d ∨ i = S (S d) ∨ i = S (S (S d)) ∨
          i = S (S (S (S d))) ∨ i = S (S (S (S (S d)))) ∨
          i = S (S (S (S (S (S d)))))) as E by lia;
  destruct E as [->|[->|[->|[->|[->|[->| ->]]]]]].

Ltac block_lookup :=
  unfold ctor_windows, ctor_sizers;
  repeat (first [ rewrite lookup_insert_eq
                | rewrite lookup_insert_ne by lia
                | rewrite lookup_empty ]).

(** ** Results *)

(** *** The constructor *)

Lemma check_parent_live (s : Store) (parent : option ptr) :
  parent_live s parent → check_parent parent s = Normal tt s [].
Proof.
  destruct parent as [p|]; [|done].
  intros [w Hw]. unfold check_parent. unfold_monad. by rewrite Hw.
Qed.

Lemma ctor_spec (parent : option ptr) (s : Store) :
  parent_live s parent →
  SchematicImportDialog_ctor K parent s
  = Normal (next s) (ctor_store parent s) (ctor_log (next s)).
Proof.
  intros Hp. apply check_parent_live in Hp.
  unfold SchematicImportDialog_ctor, wxDialog_ctor, new_wxBoxSizer,
    new_wxScrolledWindow, new_wxButton, CreateToolBar, CreateStatusBar,
    AddControl, Realize, Bind, SetSizer, SetMinSize, SetScrollRate, member,
    members_of, assign_member, new_window.
  unfold_monad. rewrite Hp. unfold check_parent. unfold_monad. cbn.
  repeat (step_lookup; cbn).
  unfold ctor_store, ctor_windows, ctor_sizers, ctor_log. f_equal.
  f_equal.
  - apply map_eq. intros i. rewrite !lookup_insert.
    repeat case_decide; try lia; reflexivity.
  - apply map_eq. intros i. rewrite !lookup_insert.
    repeat case_decide; try lia; reflexivity.
Qed.


Lemma ctor_windows_old (parent : option ptr) (n i : nat) (ws : gmap nat Window) :
  (i < n)%nat → ctor_windows parent n ws !! i = ws !! i.
Proof.
  intros Hi. unfold ctor_windows. by rewrite !lookup_insert_ne by lia.
Qed.

Lemma ctor_windows_past (parent : option ptr) (n i : nat) (ws : gmap nat Window) :
  (S (S (S (S (S (S n))))) < i)%nat → ctor_windows parent n ws !! i = ws !! i.
Proof.
  intros Hi. unfold ctor_windows. by rewrite !lookup_insert_ne by lia.
Qed.

Lemma ctor_sizers_other (n i : nat) (zs : gmap nat Sizer) :
  i ≠ S n → ctor_sizers n zs !! i = zs !! i.
Proof. intros Hi. unfold ctor_sizers. by rewrite lookup_insert_ne. Qed.

(** With empty handler bodies the first entry of the right type takes
    the event. *)
Lemma ProcessEvent_first (fuel : nat) (w : ptr) (event : wxCommandEvent)
    (s : Store) (win : Window) (b : Binding) (rest : list Binding) :
  windows s !! w = Some win →
  w_bindings win = b :: rest →
  b_type b = ev_type event →
  ProcessEvent fuel w event s
  = Normal true s [Invoke (b_method b) (b_this b)].
Proof.
  intros Hw Hb Hty.
  destruct fuel; cbn [ProcessEvent]; unfold_monad; rewrite Hw, Hb;
    cbn [SearchDynamicEventTable]; rewrite decide_True by done;
    unfold call_method; unfold_monad; by destruct (b_method b).
Qed.

Lemma click_first (w : ptr) (s : Store) (win : Window) (b : Binding)
    (rest : list Binding) :
  windows s !! w = Some win →
  w_data win = wxButtonD →
  w_bindings win = b :: rest →
  b_type b = wxEVT_BUTTON →
  click w s = Normal true s [Invoke (b_method b) (b_this b)].
Proof.
  intros Hw Hd Hb Hty. unfold click.
  unfold mbind, M_bind, bind, deref at 1. rewrite Hw, Hd.
  unfold get_store.
  by erewrite ProcessEvent_first.
Qed.

(** C1. After construction the dialog's toolbar holds exactly two
    controls: first a button labelled "Vectorize", then a button labelled
    "Zoom".  They are the two button members of the class. *)
Theorem toolbar_vectorize_then_zoom (s : Store) (parent : option ptr) :
  parent_live s parent →
  ∃ this s' log,
    SchematicImportDialog_ctor K parent s = Normal this s' log ∧
    ∃ tb vb zb,
      GetToolBar s' this = Some tb ∧
      GetControls s' tb = Some [vb; zb] ∧
      is_button s' vb = true ∧ GetLabel s' vb = Some "Vectorize" ∧
      is_button s' zb = true ∧ GetLabel s' zb = Some "Zoom" ∧
      (m_vectorizeBtn <$> GetMembers s' this) = Some (Some vb) ∧
      (m_zoomBtn <$> GetMembers s' this) = Some (Some zb).
Proof.
  intros Hp. do 3 eexists. split; [by apply ctor_spec|].
  exists (S (S (S (next s)))), (S (S (S (S (next s))))),
    (S (S (S (S (S (next s)))))).
  unfold GetToolBar, GetControls, is_button, GetLabel, GetMembers.
  ctor_lookup. repeat split.
Qed.

(** C2. After construction the minimum size the dialog reports is at
    least 800 wide and 600 high. *)
Theorem min_size_at_least_800_600 (s : Store) (parent : option ptr) :
  parent_live s parent →
  ∃ this s' log,
    SchematicImportDialog_ctor K parent s = Normal this s' log ∧
    ∃ mw mh,
      GetMinSize this s' = Normal (mw, mh) s' [] ∧ 800 ≤ mw ∧ 600 ≤ mh.
Proof.
  intros Hp. do 3 eexists. split; [by apply ctor_spec|].
  exists 800, 600. unfold GetMinSize. unfold_monad. ctor_lookup.
  repeat split; lia.
Qed.

(** C5, as amended.  For every live (or null) parent the constructed
    object is a dialog titled "Import Schematic" whose style includes
    every bit of the resize border flag; construction leaves it hidden
    and not modal (only [ShowModal], which the source never calls,
    makes a dialog modal). *)
Theorem dialog_titled_resizable_not_yet_modal (s : Store) (parent : option ptr) :
  parent_live s parent →
  ∃ this s' log,
    SchematicImportDialog_ctor K parent s = Normal this s' log ∧
    is_dialog s' this = true ∧
    GetParent s' this = Some parent ∧
    GetTitle s' this = Some "Import Schematic" ∧
    (∃ style, GetWindowStyle s' this = Some style ∧
              Z.land style (wxRESIZE_BORDER K) = wxRESIZE_BORDER K) ∧
    IsModal s' this = Some false ∧
    IsShown s' this = Some false.
Proof.
  intros Hp. do 3 eexists. split; [by apply ctor_spec|].
  unfold is_dialog, GetParent, GetTitle, GetWindowStyle, IsModal, IsShown.
  ctor_lookup. repeat split.
  eexists. split; [reflexivity|].
  apply Z.bits_inj'. intros i _. rewrite Z.land_spec, Z.lor_spec.
  by destruct (Z.testbit (wxDEFAULT_DIALOG_STYLE K) i),
    (Z.testbit (wxRESIZE_BORDER K) i).
Qed.

(** C6. After construction the scrolled window member has a scroll rate
    of exactly 5 units horizontally and 5 vertically. *)
Theorem scroll_rate_five_five (s : Store) (parent : option ptr) :
  parent_live s parent →
  ∃ this s' log,
    SchematicImportDialog_ctor K parent s = Normal this s' log ∧
    ∃ sw,
      (m_scrolledWindow <$> GetMembers s' this) = Some (Some sw) ∧
      GetScrollRate s' sw = Some (5, 5).
Proof.
  intros Hp. do 3 eexists. split; [by apply ctor_spec|].
  exists (S (S (next s))). unfold GetMembers, GetScrollRate.
  ctor_lookup. by split.
Qed.

(** C7. The constructor's one argument is the parent.  It returns
    normally; by then it has called [Bind] for both button handlers (the
    two entries are in the buttons' event tables) and has installed the
    sizer; among its calls there is none that shows the dialog, modally
    (entering an event loop) or not, and no handler was entered; the
    dialog is still hidden. *)
Theorem ctor_binds_and_lays_out_before_showing (s : Store) (parent : option ptr) :
  parent_live s parent →
  ∃ this s' log,
    SchematicImportDialog_ctor K parent s = Normal this s' log ∧
    (∃ vb zb sz,
       (m_vectorizeBtn <$> GetMembers s' this) = Some (Some vb) ∧
       (m_zoomBtn <$> GetMembers s' this) = Some (Some zb) ∧
       CallBind vb {| b_type := wxEVT_BUTTON; b_method := OnVectorize;
                      b_this := this |} ∈ log ∧
       CallBind zb {| b_type := wxEVT_BUTTON; b_method := OnZoom;
                      b_this := this |} ∈ log ∧
       CallSetSizer this sz ∈ log ∧
       GetEventTable s' vb
       = Some [{| b_type := wxEVT_BUTTON; b_method := OnVectorize;
                  b_this := this |}] ∧
       GetEventTable s' zb
       = Some [{| b_type := wxEVT_BUTTON; b_method := OnZoom;
                  b_this := this |}] ∧
       GetSizer s' this = Some (Some sz)) ∧
    forallb (λ e, negb (is_show_call e) && negb (is_invoke e)) log = true ∧
    IsShown s' this = Some false.
Proof.
  intros Hp. do 3 eexists. split; [by apply ctor_spec|]. split.
  - exists (S (S (S (S (next s))))), (S (S (S (S (S (next s)))))),
      (S (next s)).
    unfold GetMembers, GetEventTable, GetSizer, ctor_log.
    ctor_lookup. repeat split; set_solver.
  - split; [reflexivity|]. unfold IsShown. by ctor_lookup.
Qed.

(** C9. After construction the sizer installed on the dialog has no
    items.  The scrolled window is a child of the dialog, and the
    constructor makes no call that adds anything to a sizer. *)
Theorem main_sizer_is_empty (s : Store) (parent : option ptr) :
  parent_live s parent →
  ∃ this s' log,
    SchematicImportDialog_ctor K parent s = Normal this s' log ∧
    ∃ sz sw,
      GetSizer s' this = Some (Some sz) ∧
      GetItems s' sz = Some [] ∧
      (m_scrolledWindow <$> GetMembers s' this) = Some (Some sw) ∧
      GetParent s' sw = Some (Some this) ∧
      forallb (λ e, match e with CallSizerAdd _ _ => false | _ => true end)
        log = true.
Proof.
  intros Hp. do 3 eexists. split; [by apply ctor_spec|].
  exists (S (next s)), (S (S (next s))).
  unfold GetSizer, GetItems, GetMembers, GetParent.
  ctor_lookup. by repeat split.
Qed.

(** *** Parent chains and deletion *)

Lemma descends_fuel_enough (ws : gmap nat Window) (x : ptr) :
  parents_older ws →
  ∀ f1 f2 w, (w ≤ f1)%nat → (w ≤ f2)%nat →
    descends_fuel f1 ws w x = descends_fuel f2 ws w x.
Proof.
  intros Hold. induction f1 as [|f1 IH]; intros f2 w H1 H2.
  - assert (w = 0%nat) as -> by lia.
    destruct f2 as [|f2]; [done|]. cbn.
    destruct (decide (0%nat = x)); [done|].
    destruct (ws !! 0%nat) as [win|] eqn:Hw; [|done].
    destruct (w_parent win) as [p|] eqn:Hp; [|done].
    specialize (Hold _ _ _ Hw Hp). lia.
  - destruct f2 as [|f2].
    + assert (w = 0%nat) as -> by lia. cbn.
      destruct (decide (0%nat = x)); [done|].
      destruct (ws !! 0%nat) as [win|] eqn:Hw; [|done].
      destruct (w_parent win) as [p|] eqn:Hp; [|done].
      specialize (Hold _ _ _ Hw Hp). lia.
    + cbn. destruct (decide (w = x)); [done|].
      destruct (ws !! w) as [win|] eqn:Hw; [|done].
      destruct (w_parent win) as [p|] eqn:Hp; [|done].
      specialize (Hold _ _ _ Hw Hp). apply IH; lia.
Qed.

Lemma descends_fuel_S (f : nat) (ws : gmap nat Window) (w x : ptr) :
  descends_fuel (S f) ws w x
  = if decide (w = x) then true else
    match ws !! w with
    | Some win =>
        match w_parent win with
        | Some p => descends_fuel f ws p x
        | None => false
        end
    | None => false
    end.
Proof. reflexivity. Qed.

Lemma descends_self (s : Store) (w : ptr) : descends s w w = true.
Proof.
  unfold descends. destruct (next s); cbn; by rewrite decide_True.
Qed.

(** One step up the chain. *)
Lemma descends_step (s : Store) (w x : ptr) (win : Window) :
  parents_older (windows s) →
  (w < next s)%nat →
  windows s !! w = Some win →
  w ≠ x →
  descends s w x
  = match w_parent win with
    | Some p => descends s p x
    | None => false
    end.
Proof.
  intros Hold Hlt Hw Hne. unfold descends.
  destruct (next s) as [|n] eqn:Hn; [lia|].
  rewrite descends_fuel_S. rewrite decide_False by done. rewrite Hw.
  destruct (w_parent win) as [p|] eqn:Hp; [|done].
  pose proof (Hold _ _ _ Hw Hp).
  apply descends_fuel_enough; [done|lia|lia].
Qed.

Lemma elem_of_owned_sizers (ws : gmap nat Window) (z : ptr) :
  z ∈ owned_sizers ws ↔ ∃ w win, ws !! w = Some win ∧ w_sizer win = Some z.
Proof.
  unfold owned_sizers. rewrite elem_of_list_to_set, list_elem_of_omap.
  split.
  - intros [[w win] [Hin Hz]]. apply elem_of_map_to_list in Hin. eauto.
  - intros (w & win & Hw & Hz). exists (w, win).
    split; [by apply elem_of_map_to_list|done].
Qed.

Lemma Delete_spec (x : ptr) (s : Store) :
  is_Some (windows s !! x) →
  Delete x s = Normal tt (deleted_store x s) [CallDelete x].
Proof.
  intros [win Hw]. unfold Delete. unfold_monad. by rewrite Hw.
Qed.

Lemma deleted_window_lookup (x i : ptr) (s : Store) :
  windows (deleted_store x s) !! i
  = if descends s i x then None else windows s !! i.
Proof.
  cbn. destruct (descends s i x) eqn:Hd.
  - apply map_lookup_filter_None. right. intros win _. cbn. congruence.
  - destruct (windows s !! i) as [win|] eqn:Hw.
    + apply map_lookup_filter_Some. done.
    + apply map_lookup_filter_None. by left.
Qed.

Lemma deleted_sizer_sub (x z : ptr) (s : Store) (sz : Sizer) :
  sizers (deleted_store x s) !! z = Some sz → sizers s !! z = Some sz.
Proof. cbn. intros H. by apply map_lookup_filter_Some in H as [? _]. Qed.

Lemma deleted_sizer_kept (x z : ptr) (s : Store) (sz : Sizer) :
  sizers s !! z = Some sz →
  (∀ w win, windows s !! w = Some win → w_sizer win = Some z →
            descends s w x = false) →
  sizers (deleted_store x s) !! z = Some sz.
Proof.
  intros Hz Hown. cbn. apply map_lookup_filter_Some. split; [done|].
  cbn. rewrite elem_of_owned_sizers. intros (w & win & Hw & Hsz).
  apply map_lookup_filter_Some in Hw as [Hw Hd]. cbn in Hd.
  specialize (Hown _ _ Hw Hsz). congruence.
Qed.

Lemma deleted_sizer_gone (x z w : ptr) (s : Store) (win : Window) :
  windows s !! w = Some win → w_sizer win = Some z →
  descends s w x = true →
  sizers (deleted_store x s) !! z = None.
Proof.
  intros Hw Hsz Hd. cbn. apply map_lookup_filter_None. right.
  intros sz _. cbn. intros Hnot. apply Hnot.
  rewrite elem_of_owned_sizers. exists w, win. split; [|done].
  by apply map_lookup_filter_Some.
Qed.

(** *** Stores the application can reach *)

Lemma Inv_parents_older (s : Store) : Inv s → parents_older (windows s).
Proof. intros HI w win p Hw Hp. by destruct (inv_parent s HI w win p). Qed.

Lemma Inv_empty : Inv empty_store.
Proof. split; cbn; intros *; by rewrite lookup_empty. Qed.

Lemma built_at (s : Store) (d : ptr) (parent : option ptr) (i : nat) (win : Window) :
  built s d parent → (d ≤ i ≤ d + 6)%nat →
  ctor_windows parent d ∅ !! i = Some win →
  windows s !! i = Some win.
Proof. intros Hb Hi Hw. by rewrite (built_windows _ _ _ Hb i Hi). Qed.

Lemma built_dialog (s : Store) (d : ptr) (parent : option ptr) :
  built s d parent → windows s !! d = Some (ctor_dialog parent d).
Proof.
  intros Hb. rewrite (built_windows _ _ _ Hb d) by lia. by block_lookup.
Qed.

(** Inside a block, only the first address holds a top-level window. *)
Lemma built_top_level (s : Store) (d x : ptr) (parent : option ptr) (win : Window) :
  built s d parent → windows s !! x = Some win → top_level win = true →
  (d < x ≤ d + 6)%nat → False.
Proof.
  intros Hb Hx Htop Hr.
  rewrite (built_windows _ _ _ Hb x) in Hx by lia.
  block_cases x d Hr; revert Hx; block_lookup; try lia;
    intros ?; by simplify_eq/=.
Qed.

(** The windows of a block hang below the dialog: seen from a window
    outside the block's tail, they are below it exactly when the dialog
    is. *)
Lemma built_descends (s : Store) (d x i : ptr) (parent : option ptr) :
  Inv s → built s d parent →
  ¬ (d < x ≤ d + 6)%nat →
  (d ≤ i ≤ d + 6)%nat → i ≠ S d →
  descends s i x = descends s d x.
Proof.
  intros HI Hb Hx Hi HiS.
  pose proof (Inv_parents_older s HI) as Hold.
  assert (∀ j win, (d ≤ j ≤ d + 6)%nat →
            ctor_windows parent d ∅ !! j = Some win →
            j ≠ x →
            descends s j x = match w_parent win with
                             | Some p => descends s p x
                             | None => false
                             end) as Hstep.
  { intros j win Hj Hw Hne.
    pose proof (built_at s d parent j win Hb Hj Hw) as Hlive.
    apply descends_step; try done. by eapply inv_bound. }
  assert (descends s (S (S (S d))) x = descends s d x) as Htb.
  { erewrite Hstep; [| lia | by block_lookup | lia ]. done. }
  block_cases i d Hi; try done.
  - erewrite Hstep; [| lia | by block_lookup | lia ]. done.
  - erewrite Hstep; [| lia | by block_lookup | lia ]. done.
  - erewrite Hstep; [| lia | by block_lookup | lia ]. done.
  - erewrite Hstep; [| lia | by block_lookup | lia ]. done.
Qed.

(** *** What one step does to the store *)

Lemma parent_live_dec (s : Store) (parent : option ptr) :
  parent_live s parent ∨ check_parent parent s = Fault.
Proof.
  destruct parent as [p|]; [|by left]. cbn.
  destruct (windows s !! p) as [win|] eqn:Hp.
  - left. eauto.
  - right. unfold_monad. by rewrite Hp.
Qed.

Lemma new_wxFrame_spec (parent : option ptr) (title : string) (s : Store) :
  parent_live s parent →
  new_wxFrame K parent title s
  = Normal (next s) (frame_store parent title s) [CallNewFrame (next s)].
Proof.
  intros Hp. apply check_parent_live in Hp.
  unfold new_wxFrame, new_window. unfold_monad. by rewrite Hp.
Qed.

Lemma new_wxFrame_fault (parent : option ptr) (title : string) (s : Store) :
  check_parent parent s = Fault → new_wxFrame K parent title s = Fault.
Proof.
  intros Hp. unfold new_wxFrame, new_window. unfold_monad. by rewrite Hp.
Qed.

Lemma ctor_fault (parent : option ptr) (s : Store) :
  check_parent parent s = Fault → SchematicImportDialog_ctor K parent s = Fault.
Proof.
  intros Hp. unfold SchematicImportDialog_ctor, wxDialog_ctor, new_window.
  unfold_monad. by rewrite Hp.
Qed.

(** Handlers have empty bodies: dispatch never changes the store. *)
Lemma call_method_spec (m : Method) (this : ptr) (event : wxCommandEvent)
    (s : Store) :
  call_method m this event s = Normal event s [Invoke m this].
Proof. by destruct m. Qed.

Lemma SearchDynamicEventTable_store (bs : list Binding)
    (event : wxCommandEvent) (s : Store) :
  ∃ b l, SearchDynamicEventTable bs event s = Normal b s l.
Proof.
  induction bs as [|b bs IH]; cbn [SearchDynamicEventTable].
  - by eexists _, _.
  - destruct (decide (b_type b = ev_type event)); [|done].
    unfold mbind, M_bind, bind. rewrite call_method_spec. cbn.
    by eexists _, _.
Qed.

Lemma ProcessEvent_store (fuel : nat) (w : ptr) (event : wxCommandEvent)
    (s s' : Store) (b : bool) (l : list Event) :
  ProcessEvent fuel w event s = Normal b s' l → s' = s.
Proof.
  revert w b l s'. induction fuel as [|fuel IH]; intros w b l s';
    cbn [ProcessEvent]; unfold mbind, M_bind, bind, deref;
    destruct (windows s !! w) as [win|]; try done;
    destruct (SearchDynamicEventTable_store (w_bindings win) event s)
      as (h & l0 & ->);
    destruct h; unfold mret, M_ret, ret; try congruence.
  destruct (w_data win), (w_parent win) as [p|]; try congruence;
    destruct (ProcessEvent fuel p event s) as [b1 s1 l1|] eqn:HP; try done;
    apply IH in HP; congruence.
Qed.

Lemma click_store (w : ptr) (s s' : Store) (b : bool) (l : list Event) :
  click w s = Normal b s' l → s' = s.
Proof.
  unfold click. unfold mbind, M_bind, bind, deref, get_store, fault.
  destruct (windows s !! w) as [win|]; [|done].
  destruct (w_data win); try done.
  destruct (ProcessEvent _ _ _ _) as [b1 s1 l1|] eqn:HP; [|done].
  apply ProcessEvent_store in HP. congruence.
Qed.

Lemma exec_op_cases (o : Op) (s s' : Store) (l : list Event) :
  exec_op K o s = Normal tt s' l →
  s' = s ∨
  (∃ parent, parent_live s parent ∧ s' = ctor_store parent s) ∨
  (∃ parent, parent_live s parent ∧ s' = frame_store parent "" s) ∨
  (∃ x win, windows s !! x = Some win ∧ top_level win = true ∧
            s' = deleted_store x s).
Proof.
  destruct o as [parent|parent|w|w|m this event]; cbn [exec_op];
    unfold mbind, M_bind, bind.
  - destruct (parent_live_dec s parent) as [Hp|Hp].
    + rewrite (new_wxFrame_spec _ _ _ Hp). cbn. intros [= <-].
      right. right. left. eauto.
    + by rewrite (new_wxFrame_fault _ _ _ Hp).
  - destruct (parent_live_dec s parent) as [Hp|Hp].
    + rewrite (ctor_spec _ _ Hp). cbn. intros [= <-].
      right. left. eauto.
    + by rewrite (ctor_fault _ _ Hp).
  - unfold deref at 1. destruct (windows s !! w) as [win|] eqn:Hw; [|done].
    assert (is_Some (windows s !! w)) as Hlive by eauto.
    destruct (w_data win) eqn:Hd; try done;
      rewrite (Delete_spec w s Hlive); intros [= <-];
      right; right; right; exists w, win; unfold top_level; by rewrite Hd.
  - destruct (click w s) as [b s1 l1|] eqn:Hc; [|done].
    apply click_store in Hc. cbn. intros [= <-]. by left.
  - unfold members_of, deref, mbind, M_bind, bind.
    destruct (windows s !! this) as [win|]; [|done].
    destruct (w_data win); try done.
    cbn. rewrite call_method_spec. cbn. intros [= <-]. by left.
Qed.

(** *** The invariant is kept *)

Lemma built_frame (s s' : Store) (d : ptr) (parent : option ptr) :
  built s d parent →
  (∀ i, (d ≤ i ≤ d + 6)%nat → windows s' !! i = windows s !! i) →
  sizers s' !! S d = sizers s !! S d →
  built s' d parent.
Proof.
  intros [Hw Hz] Hws Hzs. split.
  - intros i Hi. by rewrite Hws, Hw.
  - by rewrite Hzs.
Qed.

Lemma built_below (s : Store) (d : ptr) (parent : option ptr) :
  Inv s → built s d parent → (d + 6 < next s)%nat.
Proof.
  intros HI Hb.
  assert (is_Some (windows s !! S (S (S (S (S (S d))))))) as [win Hw].
  { rewrite (built_windows _ _ _ Hb) by lia. block_lookup. eauto. }
  apply (inv_bound s HI) in Hw. lia.
Qed.

(** Allocation only: everything below the old [next] is untouched and
    what was added satisfies the invariant. *)
Lemma Inv_extend (s s' : Store) :
  Inv s →
  (next s ≤ next s')%nat →
  (∀ i, (i < next s)%nat → windows s' !! i = windows s !! i) →
  (∀ i, (i < next s)%nat → sizers s' !! i = sizers s !! i) →
  (∀ w win, (next s ≤ w)%nat → windows s' !! w = Some win →
     (w < next s')%nat ∧
     (∀ p, w_parent win = Some p → (p < w)%nat ∧ is_Some (windows s' !! p)) ∧
     match w_data win with
     | SchematicImportDialogD _ _ _ _ => ∃ parent, built s' w parent
     | wxFrameD => w_sizer win = None
     | _ => ∃ d parent, built s' d parent ∧ (d < w ≤ d + 6)%nat
     end) →
  (∀ z sz, (next s ≤ z)%nat → sizers s' !! z = Some sz →
     (z < next s')%nat ∧ ∃ d parent, z = S d ∧ built s' d parent) →
  Inv s'.
Proof.
  intros HI Hn Hws Hzs Hneww Hnewz.
  assert (∀ d parent, built s d parent → built s' d parent) as Hkeep.
  { intros d parent Hb. pose proof (built_below s d parent HI Hb).
    apply (built_frame s); [done| |].
    - intros i Hi. apply Hws. lia.
    - apply Hzs. lia. }
  split.
  - intros w win Hw. destruct (decide (w < next s)%nat) as [Hlt|Hge].
    + lia.
    + destruct (Hneww w win) as [Hb _]; [lia|done|done].
  - intros w win p Hw Hp. destruct (decide (w < next s)%nat) as [Hlt|Hge].
    + rewrite Hws in Hw by done.
      destruct (inv_parent s HI w win p Hw Hp) as [Hpw Hpl].
      split; [done|]. rewrite Hws by lia. done.
    + destruct (Hneww w win) as (_ & Hpar & _); [lia|done|]. by apply Hpar.
  - intros z sz Hz. destruct (decide (z < next s)%nat) as [Hlt|Hge].
    + lia.
    + destruct (Hnewz z sz) as [Hb _]; [lia|done|done].
  - intros w win Hw. destruct (decide (w < next s)%nat) as [Hlt|Hge].
    + rewrite Hws in Hw by done.
      pose proof (inv_window s HI w win Hw) as Hc.
      destruct (w_data win); try done.
      * destruct Hc as [parent Hb]. eauto.
      * destruct Hc as (d & parent & Hb & Hr). eauto.
      * destruct Hc as (d & parent & Hb & Hr). eauto.
      * destruct Hc as (d & parent & Hb & Hr). eauto.
      * destruct Hc as (d & parent & Hb & Hr). eauto.
    + destruct (Hneww w win) as (_ & _ & Hc); [lia|done|]. done.
  - intros z sz Hz. destruct (decide (z < next s)%nat) as [Hlt|Hge].
    + rewrite Hzs in Hz by done.
      destruct (inv_sizer s HI z sz Hz) as (d & parent & -> & Hb). eauto.
    + destruct (Hnewz z sz) as [_ Hc]; [lia|done|]. done.
Qed.

Lemma Inv_frame (s : Store) (parent : option ptr) (title : string) :
  Inv s → parent_live s parent → Inv (frame_store parent title s).
Proof.
  intros HI Hp. apply (Inv_extend s); cbn; try done.
  - lia.
  - intros i Hi. by rewrite lookup_insert_ne by lia.
  - intros w win Hge Hw.
    destruct (decide (w = next s)) as [->|Hne].
    + rewrite lookup_insert_eq in Hw. injection Hw as <-. cbn.
      split; [lia|]. split; [|done].
      intros p ->. destruct Hp as [pw Hp].
      pose proof (inv_bound s HI p pw Hp).
      split; [lia|]. rewrite lookup_insert_ne by lia. eauto.
    + rewrite lookup_insert_ne in Hw by done.
      apply (inv_bound s HI) in Hw. lia.
  - intros z sz Hge Hz. apply (inv_sizer_bound s HI) in Hz. lia.
Qed.

Lemma Inv_unallocated (s : Store) (i : nat) :
  Inv s → (next s ≤ i)%nat → windows s !! i = None ∧ sizers s !! i = None.
Proof.
  intros HI Hi. split.
  - destruct (windows s !! i) as [win|] eqn:Hw; [|done].
    apply (inv_bound s HI) in Hw. lia.
  - destruct (sizers s !! i) as [sz|] eqn:Hz; [|done].
    apply (inv_sizer_bound s HI) in Hz. lia.
Qed.

Lemma built_ctor (s : Store) (parent : option ptr) :
  Inv s → built (ctor_store parent s) (next s) parent.
Proof.
  intros HI. split; cbn.
  - intros i Hi. block_cases i (next s) Hi; block_lookup; try done.
    destruct (Inv_unallocated s (S (next s)) HI) as [-> _]; [lia|done].
  - by block_lookup.
Qed.

Lemma Inv_ctor (s : Store) (parent : option ptr) :
  Inv s → parent_live s parent → Inv (ctor_store parent s).
Proof.
  intros HI Hp. pose proof (built_ctor s parent HI) as Hnew.
  apply (Inv_extend s); try done.
  - cbn. lia.
  - intros i Hi. cbn. by apply ctor_windows_old.
  - intros i Hi. cbn. apply ctor_sizers_other. lia.
  - intros w win Hge Hw. cbn in Hw.
    destruct (decide (w ≤ next s + 6)%nat) as [Hin|Hout].
    + assert (next s ≤ w ≤ next s + 6)%nat as Hr by lia.
      cbn [next ctor_store windows].
      block_cases w (next s) Hr; revert Hw; block_lookup.
      * intros [= <-]. cbn. split; [lia|]. split; [|eauto].
        intros p ->. destruct Hp as [pw Hp].
        pose proof (inv_bound s HI p pw Hp).
        split; [lia|]. block_lookup. eauto.
      * intros Hw. apply (inv_bound s HI) in Hw. lia.
      * intros [= <-]. cbn. split; [lia|]. split.
        -- intros p [= <-]. split; [lia|]. rewrite lookup_insert_eq. eauto.
        -- exists (next s), parent. split; [done|lia].
      * intros [= <-]. cbn. split; [lia|]. split.
        -- intros p [= <-]. split; [lia|]. rewrite lookup_insert_eq. eauto.
        -- exists (next s), parent. split; [done|lia].
      * intros [= <-]. cbn. split; [lia|]. split.
        -- intros p [= <-]. split; [lia|]. block_lookup. eauto.
        -- exists (next s), parent. split; [done|lia].
      * intros [= <-]. cbn. split; [lia|]. split.
        -- intros p [= <-]. split; [lia|]. block_lookup. eauto.
        -- exists (next s), parent. split; [done|lia].
      * intros [= <-]. cbn. split; [lia|]. split.
        -- intros p [= <-]. split; [lia|]. rewrite lookup_insert_eq. eauto.
        -- exists (next s), parent. split; [done|lia].
    + rewrite ctor_windows_past in Hw by lia.
      apply (inv_bound s HI) in Hw. lia.
  - intros z sz Hge Hz. cbn in Hz. cbn [next ctor_store].
    destruct (decide (z = S (next s))) as [->|Hne].
    + split; [lia|]. eauto.
    + rewrite ctor_sizers_other in Hz by done.
      apply (inv_sizer_bound s HI) in Hz. lia.
Qed.

(** Only dialogs own a sizer, each the one allocated right after it. *)
Lemma sizer_owner (s : Store) (w z : ptr) (win : Window) :
  Inv s → windows s !! w = Some win → w_sizer win = Some z →
  z = S w ∧ ∃ parent, built s w parent.
Proof.
  intros HI Hw Hz. pose proof (inv_window s HI w win Hw) as Hc.
  destruct (w_data win) eqn:Hd.
  - destruct Hc as [parent Hb]. split; [|eauto].
    rewrite (built_dialog s w parent Hb) in Hw. injection Hw as <-.
    cbn in Hz. congruence.
  - destruct Hc as (d & parent & Hb & Hr).
    rewrite (built_windows _ _ _ Hb w) in Hw by lia.
    assert (d ≤ w ≤ d + 6)%nat as Hr' by lia.
    block_cases w d Hr'; revert Hw; block_lookup; try lia;
      intros ?; by simplify_eq/=.
  - destruct Hc as (d & parent & Hb & Hr).
    rewrite (built_windows _ _ _ Hb w) in Hw by lia.
    assert (d ≤ w ≤ d + 6)%nat as Hr' by lia.
    block_cases w d Hr'; revert Hw; block_lookup; try lia;
      intros ?; by simplify_eq/=.
  - destruct Hc as (d & parent & Hb & Hr).
    rewrite (built_windows _ _ _ Hb w) in Hw by lia.
    assert (d ≤ w ≤ d + 6)%nat as Hr' by lia.
    block_cases w d Hr'; revert Hw; block_lookup; try lia;
      intros ?; by simplify_eq/=.
  - destruct Hc as (d & parent & Hb & Hr).
    rewrite (built_windows _ _ _ Hb w) in Hw by lia.
    assert (d ≤ w ≤ d + 6)%nat as Hr' by lia.
    block_cases w d Hr'; revert Hw; block_lookup; try lia;
      intros ?; by simplify_eq/=.
  - congruence.
Qed.

(** Deleting a top-level window [x] takes a dialog's whole block, sizer
    included, or none of it. *)
Lemma built_block_descends (s : Store) (x d i : ptr) (xwin : Window)
    (parent : option ptr) :
  Inv s → windows s !! x = Some xwin → top_level xwin = true →
  built s d parent → (d ≤ i ≤ d + 6)%nat → i ≠ S d →
  descends s i x = descends s d x.
Proof.
  intros HI Hx Htop Hb Hi Hne.
  apply (built_descends s d x i parent); try done.
  intros Hr. by apply (built_top_level s d x parent xwin).
Qed.

Lemma built_survives (s : Store) (x d : ptr) (xwin : Window)
    (parent : option ptr) :
  Inv s → windows s !! x = Some xwin → top_level xwin = true →
  built s d parent → descends s d x = false →
  built (deleted_store x s) d parent.
Proof.
  intros HI Hx Htop Hb Hd. split.
  - intros i Hi. rewrite deleted_window_lookup.
    destruct (decide (i = S d)) as [->|Hne].
    + rewrite (built_windows _ _ _ Hb) by lia.
      destruct (descends s (S d) x); [by block_lookup|done].
    + rewrite (built_block_descends s x d i xwin parent) by done.
      rewrite Hd. by apply built_windows.
  - pose proof (built_sizer _ _ _ Hb) as Hz.
    revert Hz. block_lookup. intros Hz.
    apply deleted_sizer_kept; [done|].
    intros w win Hw Hsz.
    destruct (sizer_owner s w (S d) win HI Hw Hsz) as [Heq _].
    by simplify_eq.
Qed.

Lemma built_dies (s : Store) (x d : ptr) (xwin : Window)
    (parent : option ptr) :
  Inv s → windows s !! x = Some xwin → top_level xwin = true →
  built s d parent → descends s d x = true →
  (∀ i, (d ≤ i ≤ d + 6)%nat → windows (deleted_store x s) !! i = None) ∧
  sizers (deleted_store x s) !! S d = None.
Proof.
  intros HI Hx Htop Hb Hd. split.
  - intros i Hi. rewrite deleted_window_lookup.
    destruct (decide (i = S d)) as [->|Hne].
    + rewrite (built_windows _ _ _ Hb) by lia.
      destruct (descends s (S d) x); [done|by block_lookup].
    + rewrite (built_block_descends s x d i xwin parent) by done.
      by rewrite Hd.
  - apply (deleted_sizer_gone x (S d) d s (ctor_dialog parent d));
      [by apply built_dialog|done|done].
Qed.

Lemma Inv_delete (s : Store) (x : ptr) (xwin : Window) :
  Inv s → windows s !! x = Some xwin → top_level xwin = true →
  Inv (deleted_store x s).
Proof.
  intros HI Hx Htop.
  pose proof (Inv_parents_older s HI) as Hold.
  assert (∀ w win, windows (deleted_store x s) !! w = Some win →
            windows s !! w = Some win ∧ descends s w x = false) as Hsub.
  { intros w win. rewrite deleted_window_lookup.
    by destruct (descends s w x). }
  split.
  - intros w win Hw. apply Hsub in Hw as [Hw _].
    by apply (inv_bound s HI) in Hw.
  - intros w win p Hw Hp. apply Hsub in Hw as [Hw Hd].
    destruct (inv_parent s HI w win p Hw Hp) as [Hlt [pw Hpw]].
    split; [done|]. rewrite deleted_window_lookup.
    assert (w ≠ x) as Hne.
    { intros ->. by rewrite descends_self in Hd. }
    rewrite (descends_step s w x win) in Hd;
      [|done|by eapply inv_bound|done|done].
    rewrite Hp in Hd. rewrite Hd. eauto.
  - intros z sz Hz. apply deleted_sizer_sub in Hz.
    by apply (inv_sizer_bound s HI) in Hz.
  - intros w win Hw. apply Hsub in Hw as [Hw Hd].
    pose proof (inv_window s HI w win Hw) as Hc.
    assert (∀ d parent, built s d parent → (d < w ≤ d + 6)%nat →
              ∃ d' parent', built (deleted_store x s) d' parent' ∧
                            (d' < w ≤ d' + 6)%nat) as Hwidget.
    { intros d parent Hb Hr. exists d, parent. split; [|done].
      apply (built_survives s x d xwin); try done.
      rewrite <- (built_block_descends s x d w xwin parent); try done; [lia|].
      intros ->. rewrite (built_windows _ _ _ Hb) in Hw by lia.
      revert Hw. by block_lookup. }
    destruct (w_data win); try done.
    + destruct Hc as [parent Hb]. exists parent.
      by apply (built_survives s x w xwin).
    + destruct Hc as (d & parent & Hb & Hr). eauto.
    + destruct Hc as (d & parent & Hb & Hr). eauto.
    + destruct Hc as (d & parent & Hb & Hr). eauto.
    + destruct Hc as (d & parent & Hb & Hr). eauto.
  - intros z sz Hz. pose proof (deleted_sizer_sub _ _ _ _ Hz) as Hz0.
    destruct (inv_sizer s HI z sz Hz0) as (d & parent & -> & Hb).
    exists d, parent. split; [done|].
    destruct (descends s d x) eqn:Hd.
    + destruct (built_dies s x d xwin parent HI Hx Htop Hb Hd) as [_ Hgone].
      congruence.
    + by apply (built_survives s x d xwin).
Qed.

Lemma exec_op_Inv (o : Op) (s s' : Store) (l : list Event) :
  Inv s → exec_op K o s = Normal tt s' l → Inv s'.
Proof.
  intros HI Hop.
  destruct (exec_op_cases o s s' l Hop)
    as [->|[(parent & Hp & ->)|[(parent & Hp & ->)|(x & win & Hx & Ht & ->)]]].
  - done.
  - by apply Inv_ctor.
  - by apply Inv_frame.
  - by apply (Inv_delete s x win).
Qed.

Lemma exec_ops_Inv (os : list Op) (s s' : Store) (l : list Event) :
  Inv s → exec_ops K os s = Normal tt s' l → Inv s'.
Proof.
  revert s l. induction os as [|o os IH]; intros s l HI; cbn [exec_ops].
  - by intros [= <-].
  - unfold mbind, M_bind, bind.
    destruct (exec_op K o s) as [[] s1 l1|] eqn:Ho; [|done].
    destruct (exec_ops K os s1) as [[] s2 l2|] eqn:Hos; [|done].
    intros [= <-]. eapply IH; [|done]. by eapply exec_op_Inv.
Qed.

(** *** One dialog followed through the run *)

Lemma tracked_extend (s s' : Store) (d : ptr) (parent : option ptr) :
  tracked s d parent →
  (next s ≤ next s')%nat →
  (∀ i, (i < next s)%nat → windows s' !! i = windows s !! i) →
  (∀ i, (i < next s)%nat → sizers s' !! i = sizers s !! i) →
  tracked s' d parent.
Proof.
  intros [Hlt Hc] Hn Hws Hzs. split; [lia|].
  destruct Hc as [Hb|[Hw Hz]].
  - left. apply (built_frame s); [done| |].
    + intros i Hi. apply Hws. lia.
    + apply Hzs. lia.
  - right. split.
    + intros i Hi. rewrite Hws by lia. by apply Hw.
    + rewrite Hzs by lia. done.
Qed.

Lemma tracked_op (o : Op) (s s' : Store) (l : list Event) (d : ptr)
    (parent : option ptr) :
  Inv s → tracked s d parent → exec_op K o s = Normal tt s' l →
  tracked s' d parent.
Proof.
  intros HI Ht Hop.
  destruct (exec_op_cases o s s' l Hop)
    as [->|[(p & Hp & ->)|[(p & Hp & ->)|(x & xwin & Hx & Htop & ->)]]].
  - done.
  - apply (tracked_extend s); try done; cbn.
    + lia.
    + intros i Hi. by apply ctor_windows_old.
    + intros i Hi. apply ctor_sizers_other. lia.
  - apply (tracked_extend s); try done; cbn.
    + lia.
    + intros i Hi. by rewrite lookup_insert_ne by lia.
  - destruct Ht as [Hlt Hc]. split; [done|].
    destruct Hc as [Hb|[Hw Hz]].
    + destruct (descends s d x) eqn:Hd.
      * right. by apply (built_dies s x d xwin parent).
      * left. by apply (built_survives s x d xwin).
    + right. split.
      * intros i Hi. rewrite deleted_window_lookup, (Hw i Hi).
        by destruct (descends s i x).
      * destruct (sizers (deleted_store x s) !! S d) as [sz|] eqn:Hsz;
          [|done].
        apply deleted_sizer_sub in Hsz. congruence.
Qed.

Lemma tracked_ops (os : list Op) (s s' : Store) (l : list Event) (d : ptr)
    (parent : option ptr) :
  Inv s → tracked s d parent → exec_ops K os s = Normal tt s' l →
  tracked s' d parent.
Proof.
  revert s l. induction os as [|o os IH]; intros s l HI Ht; cbn [exec_ops].
  - by intros [= <-].
  - unfold mbind, M_bind, bind.
    destruct (exec_op K o s) as [[] s1 l1|] eqn:Ho; [|done].
    destruct (exec_ops K os s1) as [[] s2 l2|] eqn:Hos; [|done].
    intros [= <-]. eapply (IH s1); [| |done].
    + by eapply exec_op_Inv.
    + by eapply tracked_op.
Qed.

(** *** A construct / delete cycle gives the store back *)

Lemma descends_fuel_older (ws : gmap nat Window) (f : nat) (i x : ptr) :
  parents_older ws → (i < x)%nat → descends_fuel f ws i x = false.
Proof.
  intros Hold. revert i. induction f as [|f IH]; intros i Hi; cbn.
  - by rewrite decide_False by lia.
  - rewrite decide_False by lia.
    destruct (ws !! i) as [win|] eqn:Hw; [|done].
    destruct (w_parent win) as [p|] eqn:Hp; [|done].
    pose proof (Hold _ _ _ Hw Hp). apply IH. lia.
Qed.

Lemma cycle_store (s : Store) (parent : option ptr) :
  Inv s → parent_live s parent →
  windows (deleted_store (next s) (ctor_store parent s)) = windows s ∧
  sizers (deleted_store (next s) (ctor_store parent s)) = sizers s.
Proof.
  intros HI Hp.
  pose proof (Inv_ctor s parent HI Hp) as HI'.
  pose proof (built_ctor s parent HI) as Hb.
  pose proof (Inv_parents_older _ HI') as Hold.
  pose proof (built_dialog _ _ _ Hb) as Hd.
  destruct (built_dies (ctor_store parent s) (next s) (next s)
              (ctor_dialog parent (next s)) parent HI' Hd eq_refl Hb
              (descends_self _ _)) as [Hgone Hzgone].
  split.
  - apply map_eq. intros i.
    destruct (decide (i < next s)%nat) as [Hlt|Hge].
    + rewrite deleted_window_lookup. unfold descends.
      rewrite descends_fuel_older by done. cbn. by apply ctor_windows_old.
    + destruct (Inv_unallocated s i HI) as [-> _]; [lia|].
      destruct (decide (i ≤ next s + 6)%nat) as [Hin|Hout].
      * apply Hgone. lia.
      * rewrite deleted_window_lookup.
        destruct (descends _ i (next s)); [done|].
        cbn. rewrite ctor_windows_past by lia.
        destruct (Inv_unallocated s i HI) as [-> _]; [lia|done].
  - apply map_eq. intros z.
    destruct (decide (z = S (next s))) as [->|Hne].
    + rewrite Hzgone. by destruct (Inv_unallocated s (S (next s)) HI) as [_ ->]; [lia|].
    + destruct (sizers s !! z) as [sz|] eqn:Hz.
      * apply deleted_sizer_kept.
        -- cbn. by rewrite ctor_sizers_other.
        -- intros w win Hw Hsz.
           destruct (sizer_owner _ w z win HI' Hw Hsz) as [-> _].
           apply (inv_sizer_bound s HI) in Hz.
           unfold descends. apply descends_fuel_older; [done|lia].
      * destruct (sizers (deleted_store _ _) !! z) as [sz|] eqn:Hz'; [|done].
        apply deleted_sizer_sub in Hz'. cbn in Hz'.
        rewrite ctor_sizers_other in Hz' by done. congruence.
Qed.

Lemma cycles_store (parents : list (option ptr)) (s : Store) :
  Inv s → Forall (parent_live s) parents →
  ∃ s' l, construct_destroy_cycles K parents s = Normal tt s' l ∧
          windows s' = windows s ∧ sizers s' = sizers s.
Proof.
  revert s. induction parents as [|parent rest IH]; intros s HI Hall.
  - by eexists _, _.
  - apply Forall_cons in Hall as [Hp Hrest].
    cbn [construct_destroy_cycles]. unfold mbind, M_bind, bind.
    rewrite (ctor_spec parent s Hp).
    pose proof (Inv_ctor s parent HI Hp) as HI'.
    pose proof (built_dialog _ _ _ (built_ctor s parent HI)) as Hd.
    rewrite Delete_spec by eauto.
    destruct (cycle_store s parent HI Hp) as [Hw Hz].
    destruct (IH (deleted_store (next s) (ctor_store parent s)))
      as (s' & l & -> & Hw' & Hz').
    + by apply (Inv_delete _ _ (ctor_dialog parent (next s))).
    + eapply Forall_impl; [exact Hrest|].
      intros [p|]; [|done]. cbn [parent_live]. by rewrite Hw.
    + eexists _, _. split; [done|]. split; congruence.
Qed.

Lemma live_Some (s : Store) (w : ptr) (win : Window) :
  windows s !! w = Some win → live s w = true.
Proof. intros H. unfold live. apply bool_decide_eq_true. eauto. Qed.

Lemma live_None (s : Store) (w : ptr) :
  windows s !! w = None → live s w = false.
Proof.
  intros H. unfold live. apply bool_decide_eq_false. rewrite H.
  by intros [? ?].
Qed.

Lemma live_sizer_Some (s : Store) (z : ptr) (sz : Sizer) :
  sizers s !! z = Some sz → live_sizer s z = true.
Proof. intros H. unfold live_sizer. apply bool_decide_eq_true. eauto. Qed.

Lemma live_sizer_None (s : Store) (z : ptr) :
  sizers s !! z = None → live_sizer s z = false.
Proof.
  intros H. unfold live_sizer. apply bool_decide_eq_false. rewrite H.
  by intros [? ?].
Qed.

Lemma built_live (s : Store) (d i : ptr) (parent : option ptr) :
  built s d parent → (d ≤ i ≤ d + 6)%nat → i ≠ S d → live s i = true.
Proof.
  intros Hb Hi Hne.
  assert (is_Some (windows s !! i)) as [win Hw].
  { rewrite (built_windows _ _ _ Hb) by done.
    block_cases i d Hi; block_lookup; try done; eauto. }
  by eapply live_Some.
Qed.

Lemma built_live_sizer (s : Store) (d : ptr) (parent : option ptr) :
  built s d parent → live_sizer s (S d) = true.
Proof.
  intros Hb. pose proof (built_sizer _ _ _ Hb) as Hz. revert Hz.
  block_lookup. apply live_sizer_Some.
Qed.

Lemma ctor_normal_inv (parent : option ptr) (s s' : Store) (this : ptr)
    (l : list Event) :
  SchematicImportDialog_ctor K parent s = Normal this s' l →
  parent_live s parent ∧ this = next s ∧ s' = ctor_store parent s.
Proof.
  destruct (parent_live_dec s parent) as [Hp|Hp].
  - rewrite (ctor_spec _ _ Hp). by intros [= <- <- _].
  - by rewrite (ctor_fault _ _ Hp).
Qed.

(** A click on either button of a dialog that stands as built. *)
Lemma click_button_built (s : Store) (d : ptr) (parent : option ptr)
    (m : Method) :
  built s d parent →
  click_button d m s = Normal true s [Invoke m d].
Proof.
  intros Hb. unfold click_button, member, members_of.
  unfold mbind, M_bind, bind, deref, mret, M_ret, ret.
  rewrite (built_dialog s d parent Hb). cbn.
  destruct m; cbn.
  - rewrite (click_first (S (S (S (S d)))) s
               (ctor_button d "Vectorize" OnVectorize)
               {| b_type := wxEVT_BUTTON; b_method := OnVectorize;
                  b_this := d |} []);
      try reflexivity.
    apply (built_at s d parent); [done|lia|by block_lookup].
  - rewrite (click_first (S (S (S (S (S d))))) s
               (ctor_button d "Zoom" OnZoom)
               {| b_type := wxEVT_BUTTON; b_method := OnZoom;
                  b_this := d |} []);
      try reflexivity.
    apply (built_at s d parent); [done|lia|by block_lookup].
Qed.

Lemma reachable_dialog_built (ops : list Op) (s : Store) (log : list Event)
    (this : ptr) :
  exec_ops K ops empty_store = Normal tt s log →
  is_dialog s this = true →
  ∃ parent, built s this parent.
Proof.
  intros Hrun Hdlg.
  pose proof (exec_ops_Inv ops _ _ _ Inv_empty Hrun) as HI.
  unfold is_dialog in Hdlg.
  destruct (windows s !! this) as [win|] eqn:Hw; [|done]. cbn in Hdlg.
  pose proof (inv_window s HI this win Hw) as Hc.
  by destruct (w_data win).
Qed.

(** C3. In every store the application reaches from its start (by any
    constructions, earlier clicks, handler calls and deletions), a click
    on the "Vectorize" button of any live dialog enters [OnVectorize],
    on that dialog, exactly once and enters nothing else; the click
    returns normally and leaves the store as it was.  The handler
    itself, on any event and store, returns normally and changes
    neither. *)
Theorem vectorize_click_invokes_handler_once (ops : list Op) (s : Store)
    (log : list Event) :
  exec_ops K ops empty_store = Normal tt s log →
  ∀ this, is_dialog s this = true →
    click_button this OnVectorize s
    = Normal true s [Invoke OnVectorize this] ∧
    ∀ event s0,
      SchematicImportDialog_OnVectorize this event s0 = Normal event s0 [].
Proof.
  intros Hrun this Hdlg.
  destruct (reachable_dialog_built ops s log this Hrun Hdlg) as [parent Hb].
  split; [by apply (click_button_built s this parent)|done].
Qed.

(** C4. In every store the application reaches from its start (by any
    constructions, earlier clicks, handler calls and deletions), a click
    on the "Zoom" button of any live dialog enters [OnZoom], on that
    dialog, exactly once and enters nothing else; the click returns
    normally and leaves the store as it was.  The handler itself, on any
    event and store, returns normally and changes neither. *)
Theorem zoom_click_invokes_handler_once (ops : list Op) (s : Store)
    (log : list Event) :
  exec_ops K ops empty_store = Normal tt s log →
  ∀ this, is_dialog s this = true →
    click_button this OnZoom s = Normal true s [Invoke OnZoom this] ∧
    ∀ event s0,
      SchematicImportDialog_OnZoom this event s0 = Normal event s0 [].
Proof.
  intros Hrun this Hdlg.
  destruct (reachable_dialog_built ops s log this Hrun Hdlg) as [parent Hb].
  split; [by apply (click_button_built s this parent)|done].
Qed.

(** C10. In every store the application reaches from its start, by any
    sequence of constructions, clicks, direct handler calls, deletions
    and creations of other windows, every live dialog has its status
    bar member pointing at a status bar whose text is the empty string it
    was created with. *)
Theorem status_text_stays_empty (ops : list Op) (s : Store) (log : list Event) :
  exec_ops K ops empty_store = Normal tt s log →
  ∀ this, is_dialog s this = true →
    ∃ sb, (m_statusBar <$> GetMembers s this) = Some (Some sb) ∧
          GetStatusText s sb = Some EmptyString.
Proof.
  intros Hrun this Hdlg.
  pose proof (exec_ops_Inv ops _ _ _ Inv_empty Hrun) as HI.
  unfold is_dialog in Hdlg.
  destruct (windows s !! this) as [win|] eqn:Hw; [|done]. cbn in Hdlg.
  pose proof (inv_window s HI this win Hw) as Hc.
  destruct (w_data win); try done.
  destruct Hc as [parent Hb].
  exists (S (S (S (S (S (S this)))))).
  unfold GetMembers, GetStatusText.
  rewrite !(built_windows _ _ _ Hb) by lia.
  block_lookup. by split.
Qed.

(** C8. Take any run of the application from its start in which a dialog
    is constructed at some point and anything follows.  The dialog's four
    widget members, its toolbar and its sizer are live once the
    constructor returns; at the end of the run each of them is live
    exactly if the dialog still is; if the dialog is still live, deleting
    it succeeds and leaves none of them; and from the end of the run any
    number of construct / delete cycles returns the very same windows and
    sizers. *)
Theorem owned_widgets_live_and_die_with_dialog
    (ops1 ops2 : list Op) (parent : option ptr) (this : ptr)
    (s1 s2 s3 : Store) (l1 l2 l3 : list Event) :
  exec_ops K ops1 empty_store = Normal tt s1 l1 →
  SchematicImportDialog_ctor K parent s1 = Normal this s2 l2 →
  exec_ops K ops2 s2 = Normal tt s3 l3 →
  ∃ sw vb zb sb tb sz,
    GetMembers s2 this
    = Some {| m_scrolledWindow := Some sw; m_vectorizeBtn := Some vb;
              m_zoomBtn := Some zb; m_statusBar := Some sb |} ∧
    GetToolBar s2 this = Some tb ∧
    GetSizer s2 this = Some (Some sz) ∧
    live s2 this = true ∧
    Forall (λ w, live s2 w = true) [sw; vb; zb; sb; tb] ∧
    live_sizer s2 sz = true ∧
    Forall (λ w, live s3 w = live s3 this) [sw; vb; zb; sb; tb] ∧
    live_sizer s3 sz = live s3 this ∧
    (live s3 this = true →
     ∃ s4, exec_op K (OpDelete this) s3 = Normal tt s4 [CallDelete this] ∧
           live s4 this = false ∧
           Forall (λ w, live s4 w = false) [sw; vb; zb; sb; tb] ∧
           live_sizer s4 sz = false) ∧
    (∀ parents, Forall (parent_live s3) parents →
       ∃ s5 l5, construct_destroy_cycles K parents s3 = Normal tt s5 l5 ∧
                windows s5 = windows s3 ∧ sizers s5 = sizers s3).
Proof.
  intros Hrun1 Hctor Hrun2.
  pose proof (exec_ops_Inv ops1 _ _ _ Inv_empty Hrun1) as HI1.
  apply ctor_normal_inv in Hctor as (Hp & -> & ->).
  pose proof (Inv_ctor s1 parent HI1 Hp) as HI2.
  pose proof (built_ctor s1 parent HI1) as Hb2.
  assert (tracked (ctor_store parent s1) (next s1) parent) as Ht2.
  { split; [cbn; lia|by left]. }
  pose proof (exec_ops_Inv ops2 _ _ _ HI2 Hrun2) as HI3.
  pose proof (tracked_ops ops2 _ _ _ _ _ HI2 Ht2 Hrun2) as [Hlt3 Ht3].
  set (n := next s1) in *.
  exists (S (S n)), (S (S (S (S n)))), (S (S (S (S (S n))))),
    (S (S (S (S (S (S n)))))), (S (S (S n))), (S n).
  split. { unfold GetMembers. rewrite (built_dialog _ _ _ Hb2). done. }
  split. { unfold GetToolBar. rewrite (built_dialog _ _ _ Hb2). done. }
  split. { unfold GetSizer. rewrite (built_dialog _ _ _ Hb2). done. }
  split. { apply (built_live _ n _ parent Hb2); lia. }
  split. { repeat constructor; apply (built_live _ n _ parent Hb2); lia. }
  split. { by apply (built_live_sizer _ n parent). }
  assert (∀ i, (n ≤ i ≤ n + 6)%nat → i ≠ S n → live s3 i = live s3 n) as Hsame.
  { intros i Hi Hne. destruct Ht3 as [Hb3|[Hw3 Hz3]].
    - rewrite !(built_live s3 n _ parent Hb3) by lia. done.
    - rewrite !live_None by (apply Hw3; lia). done. }
  split. { repeat constructor; apply Hsame; lia. }
  split.
  { destruct Ht3 as [Hb3|[Hw3 Hz3]].
    - rewrite (built_live_sizer s3 n parent Hb3).
      rewrite (built_live s3 n n parent Hb3) by lia. done.
    - rewrite live_sizer_None by done. rewrite live_None by (apply Hw3; lia).
      done. }
  split.
  { intros Hlive. destruct Ht3 as [Hb3|[Hw3 Hz3]];
      [|rewrite live_None in Hlive by (apply Hw3; lia); done].
    pose proof (built_dialog _ _ _ Hb3) as Hd.
    exists (deleted_store n s3). split.
    { cbn [exec_op]. unfold mbind, M_bind, bind, deref. rewrite Hd. cbn.
      rewrite Delete_spec by eauto. done. }
    destruct (built_dies s3 n n (ctor_dialog parent n) parent HI3 Hd
                eq_refl Hb3 (descends_self _ _)) as [Hgone Hzgone].
    split. { apply live_None, Hgone. lia. }
    split. { repeat constructor; apply live_None, Hgone; lia. }
    by apply live_sizer_None. }
  intros parents Hall. by apply cycles_store.
Qed.

(** *** Further properties of the class *)

Ltac built_obs Hb :=
  rewrite ?(built_windows _ _ _ Hb) by lia; block_lookup.

(** X1. No operation changes a dialog once it is built: in every store
    the application reaches, every live dialog still has the title, the
    minimum size, the scroll rate, the two toolbar buttons with their
    labels and single handlers, the empty sizer and the empty status text
    its constructor gave it, and no handler of its own. *)
Theorem dialog_configuration_is_permanent (ops : list Op) (s : Store)
    (log : list Event) :
  exec_ops K ops empty_store = Normal tt s log →
  ∀ this, is_dialog s this = true →
    GetTitle s this = Some "Import Schematic" ∧
    GetMinSize this s = Normal (800, 600) s [] ∧
    GetEventTable s this = Some [] ∧
    ∃ sw tb vb zb sb sz,
      GetMembers s this
      = Some {| m_scrolledWindow := Some sw; m_vectorizeBtn := Some vb;
                m_zoomBtn := Some zb; m_statusBar := Some sb |} ∧
      GetToolBar s this = Some tb ∧
      GetSizer s this = Some (Some sz) ∧
      GetScrollRate s sw = Some (5, 5) ∧
      GetControls s tb = Some [vb; zb] ∧
      GetLabel s vb = Some "Vectorize" ∧
      GetLabel s zb = Some "Zoom" ∧
      GetEventTable s vb
      = Some [{| b_type := wxEVT_BUTTON; b_method := OnVectorize;
                 b_this := this |}] ∧
      GetEventTable s zb
      = Some [{| b_type := wxEVT_BUTTON; b_method := OnZoom;
                 b_this := this |}] ∧
      GetItems s sz = Some [] ∧
      GetStatusText s sb = Some EmptyString.
Proof.
  intros Hrun this Hdlg.
  destruct (reachable_dialog_built ops s log this Hrun Hdlg) as [parent Hb].
  pose proof (built_dialog s this parent Hb) as Hd.
  split. { unfold GetTitle. by rewrite Hd. }
  split. { unfold GetMinSize. unfold_monad. by rewrite Hd. }
  split. { unfold GetEventTable. by rewrite Hd. }
  exists (S (S this)), (S (S (S this))), (S (S (S (S this)))),
    (S (S (S (S (S this))))), (S (S (S (S (S (S this)))))), (S this).
  unfold GetMembers, GetToolBar, GetSizer, GetScrollRate, GetControls,
    GetLabel, GetEventTable, GetItems, GetStatusText.
  rewrite Hd, (built_sizer _ _ _ Hb). built_obs Hb. cbn.
  by repeat split.
Qed.

(** A table without an entry of the event's type calls nothing. *)
Lemma SearchDynamicEventTable_no_match (bs : list Binding)
    (event : wxCommandEvent) (s : Store) :
  Forall (λ b, b_type b ≠ ev_type event) bs →
  SearchDynamicEventTable bs event s = Normal false s [].
Proof.
  induction 1 as [|b bs Hb _ IH]; cbn [SearchDynamicEventTable]; [done|].
  by rewrite decide_False by done.
Qed.

(** An event no entry matches stops unhandled at a dialog ... *)
Lemma ProcessEvent_stops (fuel : nat) (w : ptr) (event : wxCommandEvent)
    (s : Store) (win : Window) :
  windows s !! w = Some win →
  Forall (λ b, b_type b ≠ ev_type event) (w_bindings win) →
  is_dialog s w = true ∨ w_parent win = None →
  ProcessEvent fuel w event s = Normal false s [].
Proof.
  intros Hw Hno Hstop.
  destruct fuel; cbn [ProcessEvent]; unfold mbind, M_bind, bind, deref;
    rewrite Hw, (SearchDynamicEventTable_no_match _ _ _ Hno); [done|].
  unfold is_dialog in Hstop. rewrite Hw in Hstop. cbn in Hstop.
  destruct (w_data win), (w_parent win); try done;
    destruct Hstop; done.
Qed.

(** ... and otherwise goes on to the parent. *)
Lemma ProcessEvent_up (fuel : nat) (w p : ptr) (event : wxCommandEvent)
    (s : Store) (win : Window) :
  windows s !! w = Some win →
  Forall (λ b, b_type b ≠ ev_type event) (w_bindings win) →
  is_dialog s w = false →
  w_parent win = Some p →
  ProcessEvent fuel p event s = Normal false s [] →
  ProcessEvent (S fuel) w event s = Normal false s [].
Proof.
  intros Hw Hno Hnd Hp Hup.
  cbn [ProcessEvent]. unfold mbind, M_bind, bind, deref.
  rewrite Hw, (SearchDynamicEventTable_no_match _ _ _ Hno). cbn.
  unfold is_dialog in Hnd. rewrite Hw in Hnd. cbn in Hnd.
  rewrite Hp. destruct (w_data win); try done; by rewrite Hup.
Qed.

Lemma owned_widgets_built (s : Store) (d : ptr) (parent : option ptr) :
  built s d parent →
  owned_widgets s d
  = [S (S (S d)); S (S d); S (S (S (S d))); S (S (S (S (S d))));
     S (S (S (S (S (S d)))))].
Proof.
  intros Hb. unfold owned_widgets, GetMembers, GetToolBar.
  by rewrite (built_dialog s d parent Hb).
Qed.

(** Inside a built dialog, an event arising at a window other than the
    two buttons, or of a type other than [wxEVT_BUTTON], walks up to the
    dialog and is taken by nobody. *)
Lemma deliver_unhandled_built (s : Store) (d w : ptr) (parent : option ptr)
    (ty : wxEventType) :
  Inv s → built s d parent →
  (d ≤ w ≤ d + 6)%nat → w ≠ S d →
  ty ≠ wxEVT_BUTTON ∨ (w ≠ S (S (S (S d))) ∧ w ≠ S (S (S (S (S d))))) →
  deliver w ty s = Normal false s [].
Proof.
  intros HI Hb Hw Hne Hcase.
  pose proof (built_below s d parent HI Hb) as Hlt.
  set (event := {| ev_type := ty; ev_object := w; ev_skipped := false |}).
  assert (∀ fuel, ProcessEvent fuel d event s = Normal false s []) as Hd.
  { intros fuel.
    apply (ProcessEvent_stops fuel d event s (ctor_dialog parent d)).
    - by apply built_dialog.
    - cbn. constructor.
    - left. unfold is_dialog. by rewrite (built_dialog s d parent Hb). }
  assert (∀ fuel j win p,
            (d < j ≤ d + 6)%nat →
            ctor_windows parent d ∅ !! j = Some win →
            Forall (λ b, b_type b ≠ ty) (w_bindings win) →
            w_data win ≠ w_data (ctor_dialog parent d) →
            w_parent win = Some p →
            ProcessEvent fuel p event s = Normal false s [] →
            ProcessEvent (S fuel) j event s = Normal false s []) as Hup.
  { intros fuel j win p Hj Hlook Hbs Hdata Hpar Hrest.
    pose proof (built_at s d parent j win Hb ltac:(lia) Hlook) as Hlive.
    apply (ProcessEvent_up fuel j p event s win); try done.
    unfold is_dialog. rewrite Hlive. cbn.
    revert Hlook Hdata.
    block_cases j d Hj; block_lookup; try lia; intros [= <-]; done. }
  assert (∀ fuel, ProcessEvent (S fuel) (S (S (S d))) event s
                  = Normal false s []) as Htb.
  { intros fuel. eapply (Hup fuel _ _ d); [lia|by block_lookup|..]; try done;
      cbn; repeat constructor. }
  unfold deliver. unfold mbind, M_bind, bind, get_store.
  fold event.
  destruct (next s) as [|[|fuel]] eqn:Hn; [lia|lia|].
  block_cases w d Hw.
  - by rewrite Hd.
  - done.
  - erewrite (Hup (S fuel) _ _ d); [done|lia|by block_lookup|..];
      try done; cbn; repeat constructor.
  - by rewrite Htb.
  - destruct Hcase as [Hty|[Hc _]]; [|done].
    erewrite (Hup (S fuel) _ _ (S (S (S d)))); [done|lia|by block_lookup|..];
      try done; cbn; repeat constructor; cbn; congruence.
  - destruct Hcase as [Hty|[_ Hc]]; [|done].
    erewrite (Hup (S fuel) _ _ (S (S (S d)))); [done|lia|by block_lookup|..];
      try done; cbn; repeat constructor; cbn; congruence.
  - erewrite (Hup (S fuel) _ _ d); [done|lia|by block_lookup|..];
      try done; cbn; repeat constructor.
Qed.

(** X2. The handlers are bound on the two buttons, not on the dialog: in
    every reachable store, a button event arising at the dialog itself,
    its toolbar, its scrolled window or its status bar enters no handler;
    it ends unhandled and the store is as it was. *)
Theorem button_event_off_the_buttons_is_unhandled (ops : list Op)
    (s : Store) (log : list Event) :
  exec_ops K ops empty_store = Normal tt s log →
  ∀ this, is_dialog s this = true →
    ∃ sw tb sb,
      (m_scrolledWindow <$> GetMembers s this) = Some (Some sw) ∧
      GetToolBar s this = Some tb ∧
      (m_statusBar <$> GetMembers s this) = Some (Some sb) ∧
      Forall (λ w, deliver w wxEVT_BUTTON s = Normal false s [])
        [this; sw; tb; sb].
Proof.
  intros Hrun this Hdlg.
  pose proof (exec_ops_Inv ops _ _ _ Inv_empty Hrun) as HI.
  destruct (reachable_dialog_built ops s log this Hrun Hdlg) as [parent Hb].
  exists (S (S this)), (S (S (S this))), (S (S (S (S (S (S this)))))).
  unfold GetMembers, GetToolBar. rewrite (built_dialog s this parent Hb).
  cbn. repeat split.
  repeat constructor;
    apply (deliver_unhandled_built s this _ parent); try done; try lia;
    right; lia.
Qed.

(** X3. Both handlers are bound for [wxEVT_BUTTON] only: in every
    reachable store, an event of any other type arising at a live dialog
    or at any of its widgets, the two buttons included, enters no
    handler; it ends unhandled and the store is as it was. *)
Theorem other_event_types_are_unhandled (ops : list Op) (s : Store)
    (log : list Event) :
  exec_ops K ops empty_store = Normal tt s log →
  ∀ this ty, is_dialog s this = true → ty ≠ wxEVT_BUTTON →
    length (owned_widgets s this) = 5%nat ∧
    Forall (λ w, deliver w ty s = Normal false s [])
      (this :: owned_widgets s this).
Proof.
  intros Hrun this ty Hdlg Hty.
  pose proof (exec_ops_Inv ops _ _ _ Inv_empty Hrun) as HI.
  destruct (reachable_dialog_built ops s log this Hrun Hdlg) as [parent Hb].
  rewrite (owned_widgets_built s this parent Hb). split; [done|].
  repeat constructor;
    apply (deliver_unhandled_built s this _ parent); try done; try lia;
    by left.
Qed.

Lemma exec_op_delete (x : ptr) (s : Store) :
  is_top_level s x = true →
  exec_op K (OpDelete x) s = Normal tt (deleted_store x s) [CallDelete x] ∧
  ∃ xwin, windows s !! x = Some xwin ∧ top_level xwin = true.
Proof.
  unfold is_top_level. intros Htop.
  destruct (windows s !! x) as [xwin|] eqn:Hx; [|done]. cbn in Htop.
  split; [|exists xwin; split; [done|]; unfold top_level;
           by destruct (w_data xwin)].
  cbn [exec_op]. unfold mbind, M_bind, bind, deref. rewrite Hx.
  destruct (w_data xwin); try done; by rewrite Delete_spec by eauto.
Qed.


(** X4. A dialog lives no longer than the parent it was constructed on:
    in every reachable store, deleting the top-level window that is a
    live dialog's parent succeeds and leaves neither the dialog, nor any
    of its widgets, nor its sizer. *)
Theorem deleting_parent_deletes_dialog (ops : list Op) (s : Store)
    (log : list Event) :
  exec_ops K ops empty_store = Normal tt s log →
  ∀ this p sz,
    is_dialog s this = true →
    GetParent s this = Some (Some p) →
    is_top_level s p = true →
    GetSizer s this = Some (Some sz) →
    ∃ s', exec_op K (OpDelete p) s = Normal tt s' [CallDelete p] ∧
          live s' this = false ∧
          Forall (λ w, live s' w = false) (owned_widgets s this) ∧
          live_sizer s' sz = false.
Proof.
  intros Hrun this p sz Hdlg Hpar Htop Hsz.
  pose proof (exec_ops_Inv ops _ _ _ Inv_empty Hrun) as HI.
  destruct (reachable_dialog_built ops s log this Hrun Hdlg) as [parent Hb].
  pose proof (built_dialog s this parent Hb) as Hd.
  unfold GetParent in Hpar. rewrite Hd in Hpar. cbn in Hpar.
  injection Hpar as ->.
  unfold GetSizer in Hsz. rewrite Hd in Hsz. cbn in Hsz.
  injection Hsz as <-.
  destruct (exec_op_delete p s Htop) as [Hop (pwin & Hp & Hptop)].
  exists (deleted_store p s). split; [done|].
  destruct (inv_parent s HI this _ p Hd eq_refl) as [Hlt _].
  assert (descends s this p = true) as Hdesc.
  { rewrite (descends_step s this p (ctor_dialog (Some p) this));
      [|by apply Inv_parents_older|by eapply inv_bound|done|lia].
    cbn. apply descends_self. }
  destruct (built_dies s p this pwin (Some p) HI Hp Hptop Hb Hdesc)
    as [Hgone Hzgone].
  split. { apply live_None, Hgone. lia. }
  split.
  { rewrite (owned_widgets_built s this (Some p) Hb).
    repeat constructor; apply live_None, Hgone; lia. }
  by apply live_sizer_None.
Qed.


(** X6. A dialog constructed without a parent is deleted by nothing but
    its own deletion: in every reachable store, deleting any other
    top-level window succeeds and leaves that dialog, all its widgets
    and its sizer live. *)
Theorem parentless_dialog_outlives_other_windows (ops : list Op)
    (s : Store) (log : list Event) :
  exec_ops K ops empty_store = Normal tt s log →
  ∀ this x sz,
    is_dialog s this = true →
    GetParent s this = Some None →
    is_top_level s x = true → x ≠ this →
    GetSizer s this = Some (Some sz) →
    ∃ s', exec_op K (OpDelete x) s = Normal tt s' [CallDelete x] ∧
          is_dialog s' this = true ∧
          owned_widgets s' this = owned_widgets s this ∧
          Forall (λ w, live s' w = true) (owned_widgets s this) ∧
          live_sizer s' sz = true.
Proof.
  intros Hrun this x sz Hdlg Hpar Htop Hne Hsz.
  pose proof (exec_ops_Inv ops _ _ _ Inv_empty Hrun) as HI.
  destruct (reachable_dialog_built ops s log this Hrun Hdlg) as [parent Hb].
  pose proof (built_dialog s this parent Hb) as Hd.
  unfold GetParent in Hpar. rewrite Hd in Hpar. cbn in Hpar.
  injection Hpar as ->.
  unfold GetSizer in Hsz. rewrite Hd in Hsz. cbn in Hsz.
  injection Hsz as <-.
  destruct (exec_op_delete x s Htop) as [Hop (xwin & Hx & Hxtop)].
  exists (deleted_store x s). split; [done|].
  assert (descends s this x = false) as Hdesc.
  { by rewrite (descends_step s this x (ctor_dialog None this));
      [|by apply Inv_parents_older|by eapply inv_bound|done|done]. }
  pose proof (built_survives s x this xwin None HI Hx Hxtop Hb Hdesc) as Hb'.
  split. { unfold is_dialog. by rewrite (built_dialog _ this None Hb'). }
  rewrite (owned_widgets_built _ this None Hb'),
    (owned_widgets_built s this None Hb).
  split; [done|]. split.
  - repeat constructor; apply (built_live _ this _ None Hb'); lia.
  - by apply (built_live_sizer _ this None).
Qed.

(** Two dialogs that stand as built lie at least seven addresses apart. *)
Lemma built_apart (s : Store) (d1 d2 : ptr) (p1 p2 : option ptr) :
  built s d1 p1 → built s d2 p2 → (d1 < d2)%nat → (d1 + 6 < d2)%nat.
Proof.
  intros Hb1 Hb2 Hlt.
  destruct (decide (d2 ≤ d1 + 6)%nat) as [Hin|]; [exfalso|lia].
  pose proof (built_dialog s d2 p2 Hb2) as Hd2.
  rewrite (built_windows _ _ _ Hb1 d2) in Hd2 by lia.
  assert (d1 ≤ d2 ≤ d1 + 6)%nat as Hr by lia.
  revert Hd2. block_cases d2 d1 Hr; block_lookup; try lia;
    intros ?; by simplify_eq/=.
Qed.

(** X7. Every dialog has widgets of its own: in every reachable store,
    two different live dialogs share no toolbar, scrolled window, button
    or status bar, neither is a widget of the other, and their sizers
    differ. *)
Theorem dialogs_share_no_widget (ops : list Op) (s : Store)
    (log : list Event) :
  exec_ops K ops empty_store = Normal tt s log →
  ∀ d1 d2,
    is_dialog s d1 = true → is_dialog s d2 = true → d1 ≠ d2 →
    (∀ w, w ∈ owned_widgets s d1 → w ∉ owned_widgets s d2) ∧
    (d1 ∉ owned_widgets s d2) ∧
    (GetSizer s d1 ≠ GetSizer s d2).
Proof.
  intros Hrun d1 d2 H1 H2 Hne.
  destruct (reachable_dialog_built ops s log d1 Hrun H1) as [p1 Hb1].
  destruct (reachable_dialog_built ops s log d2 Hrun H2) as [p2 Hb2].
  assert (d1 + 6 < d2 ∨ d2 + 6 < d1)%nat as Hfar.
  { destruct (decide (d1 < d2)%nat).
    - left. by apply (built_apart s d1 d2 p1 p2).
    - right. apply (built_apart s d2 d1 p2 p1); [done|done|lia]. }
  rewrite (owned_widgets_built s d1 p1 Hb1),
    (owned_widgets_built s d2 p2 Hb2).
  unfold GetSizer.
  rewrite (built_dialog s d1 p1 Hb1), (built_dialog s d2 p2 Hb2). cbn.
  split; [|split].
  - intros w Hw1 Hw2. rewrite !elem_of_cons, elem_of_nil in Hw1, Hw2. lia.
  - intros Hw. rewrite !elem_of_cons, elem_of_nil in Hw. lia.
  - intros [= Heq]. lia.
Qed.

(** X8. The buttons sit in the toolbar and the toolbar in the dialog:
    in every reachable store, the parent of both buttons of a live dialog
    is its toolbar, and the parent of the toolbar and of the status bar
    is the dialog. *)
Theorem buttons_hang_below_toolbar (ops : list Op) (s : Store)
    (log : list Event) :
  exec_ops K ops empty_store = Normal tt s log →
  ∀ this, is_dialog s this = true →
    ∃ tb vb zb sb,
      GetToolBar s this = Some tb ∧
      (m_vectorizeBtn <$> GetMembers s this) = Some (Some vb) ∧
      (m_zoomBtn <$> GetMembers s this) = Some (Some zb) ∧
      (m_statusBar <$> GetMembers s this) = Some (Some sb) ∧
      GetParent s vb = Some (Some tb) ∧
      GetParent s zb = Some (Some tb) ∧
      GetParent s tb = Some (Some this) ∧
      GetParent s sb = Some (Some this).
Proof.
  intros Hrun this Hdlg.
  destruct (reachable_dialog_built ops s log this Hrun Hdlg) as [parent Hb].
  exists (S (S (S this))), (S (S (S (S this)))), (S (S (S (S (S this))))),
    (S (S (S (S (S (S this)))))).
  unfold GetToolBar, GetMembers, GetParent.
  rewrite (built_dialog s this parent Hb). built_obs Hb. cbn.
  by repeat split.
Qed.


(** X10. The toolbar is realized after its controls are in: for every
    store and live (or null) parent, the constructor's calls contain,
    next to each other and in this order, the addition of the Vectorize
    button, the addition of the Zoom button and the toolbar's [Realize];
    it adds no other control, before or after. *)
Theorem controls_added_then_toolbar_realized (s : Store)
    (parent : option ptr) :
  parent_live s parent →
  ∃ this s' log,
    SchematicImportDialog_ctor K parent s = Normal this s' log ∧
    ∃ tb vb zb pre post,
      GetToolBar s' this = Some tb ∧
      (m_vectorizeBtn <$> GetMembers s' this) = Some (Some vb) ∧
      (m_zoomBtn <$> GetMembers s' this) = Some (Some zb) ∧
      log = pre ++ [CallAddControl tb vb; CallAddControl tb zb;
                    CallRealize tb] ++ post ∧
      forallb (λ e, negb (is_add_control e)) (pre ++ post) = true.
Proof.
  intros Hp. do 3 eexists. split; [by apply ctor_spec|].
  exists (S (S (S (next s)))), (S (S (S (S (next s))))),
    (S (S (S (S (S (next s)))))),
    (firstn 7 (ctor_log (next s))), (skipn 10 (ctor_log (next s))).
  unfold GetToolBar, GetMembers. ctor_lookup. by repeat split.
Qed.

End Verification.

(** ** The results on the sample runs *)

Lemma toolbar_vectorize_then_zoom_sample :
  parent_live sample_frame (Some 0%nat) ∧
  ∃ this s' log,
    SchematicImportDialog_ctor wx_sample (Some 0%nat) sample_frame
    = Normal this s' log ∧
    ∃ tb vb zb,
      GetToolBar s' this = Some tb ∧
      GetControls s' tb = Some [vb; zb] ∧
      is_button s' vb = true ∧ GetLabel s' vb = Some "Vectorize" ∧
      is_button s' zb = true ∧ GetLabel s' zb = Some "Zoom" ∧
      (m_vectorizeBtn <$> GetMembers s' this) = Some (Some vb) ∧
      (m_zoomBtn <$> GetMembers s' this) = Some (Some zb).
Proof.
  assert (parent_live sample_frame (Some 0%nat)) as Hparent
    by (vm_compute; eexists; reflexivity).
  split; [exact Hparent|].
  exact (toolbar_vectorize_then_zoom wx_sample sample_frame (Some 0%nat) Hparent).
Defined.

Lemma min_size_at_least_800_600_sample :
  parent_live empty_store None ∧
  ∃ this s' log,
    SchematicImportDialog_ctor wx_sample None empty_store
    = Normal this s' log ∧
    ∃ mw mh,
      GetMinSize this s' = Normal (mw, mh) s' [] ∧ 800 ≤ mw ∧ 600 ≤ mh.
Proof.
  split; [exact I|].
  exact (min_size_at_least_800_600 wx_sample empty_store None I).
Defined.

Lemma vectorize_click_invokes_handler_once_sample :
  exec_ops wx_sample sample_run empty_store
  = Normal tt sample_end
      (log_of (exec_ops wx_sample sample_run empty_store)) ∧
  is_dialog sample_end 1%nat = true ∧
  click_button 1%nat OnVectorize sample_end
  = Normal true sample_end [Invoke OnVectorize 1%nat] ∧
  ∀ event s0,
    SchematicImportDialog_OnVectorize 1%nat event s0 = Normal event s0 [].
Proof.
  assert (exec_ops wx_sample sample_run empty_store
          = Normal tt sample_end
              (log_of (exec_ops wx_sample sample_run empty_store))) as Hrun
    by (vm_compute; reflexivity).
  assert (is_dialog sample_end 1%nat = true) as Hdlg
    by (vm_compute; reflexivity).
  split; [exact Hrun|]. split; [exact Hdlg|].
  exact (vectorize_click_invokes_handler_once wx_sample sample_run
           sample_end _ Hrun 1%nat Hdlg).
Defined.

Lemma zoom_click_invokes_handler_once_sample :
  exec_ops wx_sample sample_run empty_store
  = Normal tt sample_end
      (log_of (exec_ops wx_sample sample_run empty_store)) ∧
  is_dialog sample_end 1%nat = true ∧
  click_button 1%nat OnZoom sample_end
  = Normal true sample_end [Invoke OnZoom 1%nat] ∧
  ∀ event s0,
    SchematicImportDialog_OnZoom 1%nat event s0 = Normal event s0 [].
Proof.
  assert (exec_ops wx_sample sample_run empty_store
          = Normal tt sample_end
              (log_of (exec_ops wx_sample sample_run empty_store))) as Hrun
    by (vm_compute; reflexivity).
  assert (is_dialog sample_end 1%nat = true) as Hdlg
    by (vm_compute; reflexivity).
  split; [exact Hrun|]. split; [exact Hdlg|].
  exact (zoom_click_invokes_handler_once wx_sample sample_run sample_end _
           Hrun 1%nat Hdlg).
Defined.

Lemma dialog_titled_resizable_not_yet_modal_sample :
  parent_live sample_frame (Some 0%nat) ∧
  ∃ this s' log,
    SchematicImportDialog_ctor wx_sample (Some 0%nat) sample_frame
    = Normal this s' log ∧
    is_dialog s' this = true ∧
    GetParent s' this = Some (Some 0%nat) ∧
    GetTitle s' this = Some "Import Schematic" ∧
    (∃ style, GetWindowStyle s' this = Some style ∧
              Z.land style (wxRESIZE_BORDER wx_sample)
              = wxRESIZE_BORDER wx_sample) ∧
    IsModal s' this = Some false ∧
    IsShown s' this = Some false.
Proof.
  assert (parent_live sample_frame (Some 0%nat)) as Hparent
    by (vm_compute; eexists; reflexivity).
  split; [exact Hparent|].
  exact (dialog_titled_resizable_not_yet_modal wx_sample sample_frame (Some 0%nat) Hparent).
Defined.

(** C5 as stated fails: the dialog the constructor returns, here for a
    null parent in the empty store, is not modal. *)
Lemma constructed_dialog_is_not_modal :
  ¬ ∃ this s' log,
      SchematicImportDialog_ctor wx_sample None empty_store
      = Normal this s' log ∧
      IsModal s' this = Some true ∧
      GetTitle s' this = Some "Import Schematic" ∧
      (∃ style, GetWindowStyle s' this = Some style ∧
                Z.land style (wxRESIZE_BORDER wx_sample)
                = wxRESIZE_BORDER wx_sample).
Proof.
  intros (this & s' & log & Hc & Hm & _).
  rewrite (ctor_spec wx_sample None empty_store I) in Hc.
  injection Hc as <- <- _. vm_compute in Hm. discriminate.
Qed.

Lemma scroll_rate_five_five_sample :
  parent_live sample_frame (Some 0%nat) ∧
  ∃ this s' log,
    SchematicImportDialog_ctor wx_sample (Some 0%nat) sample_frame
    = Normal this s' log ∧
    ∃ sw,
      (m_scrolledWindow <$> GetMembers s' this) = Some (Some sw) ∧
      GetScrollRate s' sw = Some (5, 5).
Proof.
  assert (parent_live sample_frame (Some 0%nat)) as Hparent
    by (vm_compute; eexists; reflexivity).
  split; [exact Hparent|].
  exact (scroll_rate_five_five wx_sample sample_frame (Some 0%nat) Hparent).
Defined.

Lemma ctor_binds_and_lays_out_before_showing_sample :
  parent_live sample_frame (Some 0%nat) ∧
  ∃ this s' log,
    SchematicImportDialog_ctor wx_sample (Some 0%nat) sample_frame
    = Normal this s' log ∧
    (∃ vb zb sz,
       (m_vectorizeBtn <$> GetMembers s' this) = Some (Some vb) ∧
       (m_zoomBtn <$> GetMembers s' this) = Some (Some zb) ∧
       CallBind vb {| b_type := wxEVT_BUTTON; b_method := OnVectorize;
                      b_this := this |} ∈ log ∧
       CallBind zb {| b_type := wxEVT_BUTTON; b_method := OnZoom;
                      b_this := this |} ∈ log ∧
       CallSetSizer this sz ∈ log ∧
       GetEventTable s' vb
       = Some [{| b_type := wxEVT_BUTTON; b_method := OnVectorize;
                  b_this := this |}] ∧
       GetEventTable s' zb
       = Some [{| b_type := wxEVT_BUTTON; b_method := OnZoom;
                  b_this := this |}] ∧
       GetSizer s' this = Some (Some sz)) ∧
    forallb (λ e, negb (is_show_call e) && negb (is_invoke e)) log = true ∧
    IsShown s' this = Some false.
Proof.
  assert (parent_live sample_frame (Some 0%nat)) as Hparent
    by (vm_compute; eexists; reflexivity).
  split; [exact Hparent|].
  exact (ctor_binds_and_lays_out_before_showing wx_sample sample_frame (Some 0%nat) Hparent).
Defined.

Lemma main_sizer_is_empty_sample :
  parent_live sample_frame (Some 0%nat) ∧
  ∃ this s' log,
    SchematicImportDialog_ctor wx_sample (Some 0%nat) sample_frame
    = Normal this s' log ∧
    ∃ sz sw,
      GetSizer s' this = Some (Some sz) ∧
      GetItems s' sz = Some [] ∧
      (m_scrolledWindow <$> GetMembers s' this) = Some (Some sw) ∧
      GetParent s' sw = Some (Some this) ∧
      forallb (λ e, match e with CallSizerAdd _ _ => false | _ => true end)
        log = true.
Proof.
  assert (parent_live sample_frame (Some 0%nat)) as Hparent
    by (vm_compute; eexists; reflexivity).
  split; [exact Hparent|].
  exact (main_sizer_is_empty wx_sample sample_frame (Some 0%nat) Hparent).
Defined.

Lemma status_text_stays_empty_sample :
  exec_ops wx_sample sample_run empty_store
  = Normal tt sample_end
      (log_of (exec_ops wx_sample sample_run empty_store)) ∧
  is_dialog sample_end 1%nat = true ∧
  ∃ sb, (m_statusBar <$> GetMembers sample_end 1%nat) = Some (Some sb) ∧
        GetStatusText sample_end sb = Some EmptyString.
Proof.
  assert (exec_ops wx_sample sample_run empty_store
          = Normal tt sample_end
              (log_of (exec_ops wx_sample sample_run empty_store))) as Hrun
    by (vm_compute; reflexivity).
  assert (is_dialog sample_end 1%nat = true) as Hdlg
    by (vm_compute; reflexivity).
  split; [exact Hrun|]. split; [exact Hdlg|].
  exact (status_text_stays_empty wx_sample sample_run sample_end _ Hrun
           1%nat Hdlg).
Defined.

Lemma owned_widgets_live_and_die_with_dialog_sample :
  exec_ops wx_sample sample_before empty_store
  = Normal tt sample_frame
      (log_of (exec_ops wx_sample sample_before empty_store)) ∧
  SchematicImportDialog_ctor wx_sample (Some 0%nat) sample_frame
  = Normal 1%nat sample_built
      (log_of (SchematicImportDialog_ctor wx_sample (Some 0%nat) sample_frame)) ∧
  exec_ops wx_sample sample_after sample_built
  = Normal tt sample_end
      (log_of (exec_ops wx_sample sample_after sample_built)) ∧
  ∃ sw vb zb sb tb sz,
    GetMembers sample_built 1%nat
    = Some {| m_scrolledWindow := Some sw; m_vectorizeBtn := Some vb;
              m_zoomBtn := Some zb; m_statusBar := Some sb |} ∧
    GetToolBar sample_built 1%nat = Some tb ∧
    GetSizer sample_built 1%nat = Some (Some sz) ∧
    live sample_built 1%nat = true ∧
    Forall (λ w, live sample_built w = true) [sw; vb; zb; sb; tb] ∧
    live_sizer sample_built sz = true ∧
    Forall (λ w, live sample_end w = live sample_end 1%nat)
      [sw; vb; zb; sb; tb] ∧
    live_sizer sample_end sz = live sample_end 1%nat ∧
    (live sample_end 1%nat = true →
     ∃ s4, exec_op wx_sample (OpDelete 1%nat) sample_end
           = Normal tt s4 [CallDelete 1%nat] ∧
           live s4 1%nat = false ∧
           Forall (λ w, live s4 w = false) [sw; vb; zb; sb; tb] ∧
           live_sizer s4 sz = false) ∧
    (∀ parents, Forall (parent_live sample_end) parents →
       ∃ s5 l5,
         construct_destroy_cycles wx_sample parents sample_end
         = Normal tt s5 l5 ∧
         windows s5 = windows sample_end ∧ sizers s5 = sizers sample_end).
Proof.
  assert (exec_ops wx_sample sample_before empty_store
          = Normal tt sample_frame
              (log_of (exec_ops wx_sample sample_before empty_store)))
    as Hbefore by (vm_compute; reflexivity).
  assert (SchematicImportDialog_ctor wx_sample (Some 0%nat) sample_frame
          = Normal 1%nat sample_built
              (log_of (SchematicImportDialog_ctor wx_sample (Some 0%nat)
                         sample_frame)))
    as Hctor by (vm_compute; reflexivity).
  assert (exec_ops wx_sample sample_after sample_built
          = Normal tt sample_end
              (log_of (exec_ops wx_sample sample_after sample_built)))
    as Hafter by (vm_compute; reflexivity).
  split; [exact Hbefore|].
  split; [exact Hctor|].
  split; [exact Hafter|].
  exact (owned_widgets_live_and_die_with_dialog wx_sample sample_before
           sample_after (Some 0%nat) 1%nat sample_frame sample_built
           sample_end _ _ _ Hbefore Hctor Hafter).
Defined.

(** ** The further properties on the sample runs *)

Lemma dialog_configuration_is_permanent_sample :
  exec_ops wx_sample sample_run empty_store
  = Normal tt sample_end
      (log_of (exec_ops wx_sample sample_run empty_store)) ∧
  is_dialog sample_end 1%nat = true ∧
  GetTitle sample_end 1%nat = Some "Import Schematic" ∧
  GetMinSize 1%nat sample_end = Normal (800, 600) sample_end [] ∧
  GetEventTable sample_end 1%nat = Some [] ∧
  ∃ sw tb vb zb sb sz,
    GetMembers sample_end 1%nat
    = Some {| m_scrolledWindow := Some sw; m_vectorizeBtn := Some vb;
              m_zoomBtn := Some zb; m_statusBar := Some sb |} ∧
    GetToolBar sample_end 1%nat = Some tb ∧
    GetSizer sample_end 1%nat = Some (Some sz) ∧
    GetScrollRate sample_end sw = Some (5, 5) ∧
    GetControls sample_end tb = Some [vb; zb] ∧
    GetLabel sample_end vb = Some "Vectorize" ∧
    GetLabel sample_end zb = Some "Zoom" ∧
    GetEventTable sample_end vb
    = Some [{| b_type := wxEVT_BUTTON; b_method := OnVectorize;
               b_this := 1%nat |}] ∧
    GetEventTable sample_end zb
    = Some [{| b_type := wxEVT_BUTTON; b_method := OnZoom;
               b_this := 1%nat |}] ∧
    GetItems sample_end sz = Some [] ∧
    GetStatusText sample_end sb = Some EmptyString.
Proof.
  assert (exec_ops wx_sample sample_run empty_store
          = Normal tt sample_end
              (log_of (exec_ops wx_sample sample_run empty_store))) as Hrun
    by (vm_compute; reflexivity).
  assert (is_dialog sample_end 1%nat = true) as Hdlg
    by (vm_compute; reflexivity).
  split; [exact Hrun|]. split; [exact Hdlg|].
  exact (dialog_configuration_is_permanent wx_sample sample_run sample_end _
           Hrun 1%nat Hdlg).
Defined.

Lemma button_event_off_the_buttons_is_unhandled_sample :
  exec_ops wx_sample sample_run empty_store
  = Normal tt sample_end
      (log_of (exec_ops wx_sample sample_run empty_store)) ∧
  is_dialog sample_end 1%nat = true ∧
  ∃ sw tb sb,
    (m_scrolledWindow <$> GetMembers sample_end 1%nat) = Some (Some sw) ∧
    GetToolBar sample_end 1%nat = Some tb ∧
    (m_statusBar <$> GetMembers sample_end 1%nat) = Some (Some sb) ∧
    Forall (λ w, deliver w wxEVT_BUTTON sample_end
                 = Normal false sample_end [])
      [1%nat; sw; tb; sb].
Proof.
  assert (exec_ops wx_sample sample_run empty_store
          = Normal tt sample_end
              (log_of (exec_ops wx_sample sample_run empty_store))) as Hrun
    by (vm_compute; reflexivity).
  assert (is_dialog sample_end 1%nat = true) as Hdlg
    by (vm_compute; reflexivity).
  split; [exact Hrun|]. split; [exact Hdlg|].
  exact (button_event_off_the_buttons_is_unhandled wx_sample sample_run
           sample_end _ Hrun 1%nat Hdlg).
Defined.

Lemma other_event_types_are_unhandled_sample :
  exec_ops wx_sample sample_run empty_store
  = Normal tt sample_end
      (log_of (exec_ops wx_sample sample_run empty_store)) ∧
  is_dialog sample_end 1%nat = true ∧
  wxEVT_TOOL ≠ wxEVT_BUTTON ∧
  length (owned_widgets sample_end 1%nat) = 5%nat ∧
  Forall (λ w, deliver w wxEVT_TOOL sample_end = Normal false sample_end [])
    (1%nat :: owned_widgets sample_end 1%nat).
Proof.
  assert (exec_ops wx_sample sample_run empty_store
          = Normal tt sample_end
              (log_of (exec_ops wx_sample sample_run empty_store))) as Hrun
    by (vm_compute; reflexivity).
  assert (is_dialog sample_end 1%nat = true) as Hdlg
    by (vm_compute; reflexivity).
  assert (wxEVT_TOOL ≠ wxEVT_BUTTON) as Hty by discriminate.
  split; [exact Hrun|]. split; [exact Hdlg|]. split; [exact Hty|].
  exact (other_event_types_are_unhandled wx_sample sample_run sample_end _
           Hrun 1%nat wxEVT_TOOL Hdlg Hty).
Defined.

Lemma deleting_parent_deletes_dialog_sample :
  exec_ops wx_sample sample_run empty_store
  = Normal tt sample_end
      (log_of (exec_ops wx_sample sample_run empty_store)) ∧
  is_dialog sample_end 1%nat = true ∧
  GetParent sample_end 1%nat = Some (Some 0%nat) ∧
  is_top_level sample_end 0%nat = true ∧
  GetSizer sample_end 1%nat = Some (Some 2%nat) ∧
  ∃ s', exec_op wx_sample (OpDelete 0%nat) sample_end
        = Normal tt s' [CallDelete 0%nat] ∧
        live s' 1%nat = false ∧
        Forall (λ w, live s' w = false) (owned_widgets sample_end 1%nat) ∧
        live_sizer s' 2%nat = false.
Proof.
  assert (exec_ops wx_sample sample_run empty_store
          = Normal tt sample_end
              (log_of (exec_ops wx_sample sample_run empty_store))) as Hrun
    by (vm_compute; reflexivity).
  assert (is_dialog sample_end 1%nat = true) as Hdlg
    by (vm_compute; reflexivity).
  assert (GetParent sample_end 1%nat = Some (Some 0%nat)) as Hpar
    by (vm_compute; reflexivity).
  assert (is_top_level sample_end 0%nat = true) as Htop
    by (vm_compute; reflexivity).
  assert (GetSizer sample_end 1%nat = Some (Some 2%nat)) as Hsz
    by (vm_compute; reflexivity).
  split; [exact Hrun|]. split; [exact Hdlg|]. split; [exact Hpar|].
  split; [exact Htop|]. split; [exact Hsz|].
  exact (deleting_parent_deletes_dialog wx_sample sample_run sample_end _
           Hrun 1%nat 0%nat 2%nat Hdlg Hpar Htop Hsz).
Defined.


Lemma parentless_dialog_outlives_other_windows_sample :
  exec_ops wx_sample sample_pair_run empty_store
  = Normal tt sample_pair
      (log_of (exec_ops wx_sample sample_pair_run empty_store)) ∧
  is_dialog sample_pair 8%nat = true ∧
  GetParent sample_pair 8%nat = Some None ∧
  is_top_level sample_pair 0%nat = true ∧
  0%nat ≠ 8%nat ∧
  GetSizer sample_pair 8%nat = Some (Some 9%nat) ∧
  ∃ s', exec_op wx_sample (OpDelete 0%nat) sample_pair
        = Normal tt s' [CallDelete 0%nat] ∧
        is_dialog s' 8%nat = true ∧
        owned_widgets s' 8%nat = owned_widgets sample_pair 8%nat ∧
        Forall (λ w, live s' w = true) (owned_widgets sample_pair 8%nat) ∧
        live_sizer s' 9%nat = true.
Proof.
  assert (exec_ops wx_sample sample_pair_run empty_store
          = Normal tt sample_pair
              (log_of (exec_ops wx_sample sample_pair_run empty_store)))
    as Hrun by (vm_compute; reflexivity).
  assert (is_dialog sample_pair 8%nat = true) as Hdlg
    by (vm_compute; reflexivity).
  assert (GetParent sample_pair 8%nat = Some None) as Hpar
    by (vm_compute; reflexivity).
  assert (is_top_level sample_pair 0%nat = true) as Htop
    by (vm_compute; reflexivity).
  assert (0%nat ≠ 8%nat) as Hne by lia.
  assert (GetSizer sample_pair 8%nat = Some (Some 9%nat)) as Hsz
    by (vm_compute; reflexivity).
  split; [exact Hrun|]. split; [exact Hdlg|]. split; [exact Hpar|].
  split; [exact Htop|]. split; [exact Hne|]. split; [exact Hsz|].
  exact (parentless_dialog_outlives_other_windows wx_sample sample_pair_run
           sample_pair _ Hrun 8%nat 0%nat 9%nat Hdlg Hpar Htop Hne Hsz).
Defined.

Lemma dialogs_share_no_widget_sample :
  exec_ops wx_sample sample_pair_run empty_store
  = Normal tt sample_pair
      (log_of (exec_ops wx_sample sample_pair_run empty_store)) ∧
  is_dialog sample_pair 1%nat = true ∧
  is_dialog sample_pair 8%nat = true ∧
  1%nat ≠ 8%nat ∧
  (∀ w, w ∈ owned_widgets sample_pair 1%nat →
        w ∉ owned_widgets sample_pair 8%nat) ∧
  (1%nat ∉ owned_widgets sample_pair 8%nat) ∧
  (GetSizer sample_pair 1%nat ≠ GetSizer sample_pair 8%nat).
Proof.
  assert (exec_ops wx_sample sample_pair_run empty_store
          = Normal tt sample_pair
              (log_of (exec_ops wx_sample sample_pair_run empty_store)))
    as Hrun by (vm_compute; reflexivity).
  assert (is_dialog sample_pair 1%nat = true) as H1
    by (vm_compute; reflexivity).
  assert (is_dialog sample_pair 8%nat = true) as H8
    by (vm_compute; reflexivity).
  assert (1%nat ≠ 8%nat) as Hne by lia.
  split; [exact Hrun|]. split; [exact H1|]. split; [exact H8|].
  split; [exact Hne|].
  exact (dialogs_share_no_widget wx_sample sample_pair_run sample_pair _
           Hrun 1%nat 8%nat H1 H8 Hne).
Defined.

Lemma buttons_hang_below_toolbar_sample :
  exec_ops wx_sample sample_run empty_store
  = Normal tt sample_end
      (log_of (exec_ops wx_sample sample_run empty_store)) ∧
  is_dialog sample_end 1%nat = true ∧
  ∃ tb vb zb sb,
    GetToolBar sample_end 1%nat = Some tb ∧
    (m_vectorizeBtn <$> GetMembers sample_end 1%nat) = Some (Some vb) ∧
    (m_zoomBtn <$> GetMembers sample_end 1%nat) = Some (Some zb) ∧
    (m_statusBar <$> GetMembers sample_end 1%nat) = Some (Some sb) ∧
    GetParent sample_end vb = Some (Some tb) ∧
    GetParent sample_end zb = Some (Some tb) ∧
    GetParent sample_end tb = Some (Some 1%nat) ∧
    GetParent sample_end sb = Some (Some 1%nat).
Proof.
  assert (exec_ops wx_sample sample_run empty_store
          = Normal tt sample_end
              (log_of (exec_ops wx_sample sample_run empty_store))) as Hrun
    by (vm_compute; reflexivity).
  assert (is_dialog sample_end 1%nat = true) as Hdlg
    by (vm_compute; reflexivity).
  split; [exact Hrun|]. split; [exact Hdlg|].
  exact (buttons_hang_below_toolbar wx_sample sample_run sample_end _ Hrun
           1%nat Hdlg).
Defined.


Lemma controls_added_then_toolbar_realized_sample :
  parent_live sample_frame (Some 0%nat) ∧
  ∃ this s' log,
    SchematicImportDialog_ctor wx_sample (Some 0%nat) sample_frame
    = Normal this s' log ∧
    ∃ tb vb zb pre post,
      GetToolBar s' this = Some tb ∧
      (m_vectorizeBtn <$> GetMembers s' this) = Some (Some vb) ∧
      (m_zoomBtn <$> GetMembers s' this) = Some (Some zb) ∧
      log = pre ++ [CallAddControl tb vb; CallAddControl tb zb;
                    CallRealize tb] ++ post ∧
      forallb (λ e, negb (is_add_control e)) (pre ++ post) = true.
Proof.
  assert (parent_live sample_frame (Some 0%nat)) as Hparent
    by (vm_compute; eexists; reflexivity).
  split; [exact Hparent|].
  exact (controls_added_then_toolbar_realized wx_sample sample_frame
           (Some 0%nat) Hparent).
Defined.
